(** * Custom vector tile source: worker-side indexing engine and
      main-thread request coordinator

    A shallow embedding of
      - [CustomVectorTileWorkerSource] (the worker source: [loadData],
        [reloadTile], [loadGeoJSON], [removeSource] and the tile loading
        function [loadTile] handed to the superclass), and
      - [CustomVectorTileSource] (the source living on the main thread:
        [setData], [_updateWorkerData], [loaded], [loadTile], [abortTile],
        [unloadTile], [onRemove]).

    JavaScript objects become records, fields that may be [undefined] become
    [option]s, callbacks are identified by a number and their invocations are
    recorded as events, and the asynchronous collaborators (ajax requests, the
    actor) are explicit tables of outstanding calls. *)

From Stdlib Require Import ZArith.
From Stdlib.Strings Require Import Byte.
From stdpp Require Import gmap strings list.

Open Scope Z_scope.
Set Warnings "-register-all".
Set Default Proof Using "Type".

(** ** Values shared by both sides *)

(** A JavaScript value as produced by [JSON.parse] or by [getJSON]. *)
Inductive JSValue :=
| JUndefined
| JNull
| JBool (b : bool)
| JNumber (n : Z)
| JString (s : string)
| JArray (items : list JSValue)
| JObject (fields : list (string * JSValue)).

(** [!data] *)
Definition falsy (v : JSValue) : bool :=
  match v with
  | JUndefined | JNull => true
  | JBool b => negb b
  | JNumber n => n =? 0
  | JString s => if decide (s = EmptyString) then true else false
  | JArray _ | JObject _ => false
  end.

(** [typeof data === 'object'] *)
Definition typeof_object (v : JSValue) : bool :=
  match v with
  | JNull | JArray _ | JObject _ => true
  | _ => false
  end.

Inductive Error :=
| InvalidGeoJSON (source : string)
    (* new Error(`Input data given to '${source}' is not a valid GeoJSON object.`) *)
| AJAXError (status : Z)
| SyntaxError
| LibraryError (what : string).

Definition CallbackId := nat.
Bind Scope nat_scope with CallbackId.

Record CanonicalTileID := { z : Z; x : Z; y : Z }.

Record RequestParameters := {
  url : string;
  collectResourceTiming : bool
}.

(** The entries returned by [RequestPerformance.finish]. *)
Definition ResourceTiming := list Z.

(** The result handed to a [loadData] callback;
    [abandoned?: boolean] absent is [false]. *)
Record LoadDataResult := {
  resourceTiming : option (string * ResourceTiming);
  abandoned : bool
}.

Definition result_abandoned : LoadDataResult :=
  {| resourceTiming := None; abandoned := true |}.

(** ** A state, trace and exception monad

    A method is a function of the world it runs in; it yields the events it
    caused (callback invocations, messages, cancellations), the world it
    leaves behind, and either a value or the exception it threw. *)

Inductive Outcome (A : Type) :=
| Normal (a : A)
| Thrown (e : Error).
Arguments Normal {A} a.
Arguments Thrown {A} e.

Definition Run (W E A : Type) : Type := W → list E * W * Outcome A.

Section Run.
Context {W E : Type}.

Definition ret {A} (a : A) : Run W E A := λ w, ([], w, Normal a).

Definition bind {A B} (m : Run W E A) (f : A → Run W E B) : Run W E B :=
  λ w, match m w with
       | (ev1, w1, Normal a) =>
           match f a w1 with
           | (ev2, w2, o) => (ev1 ++ ev2, w2, o)
           end
       | (ev1, w1, Thrown e) => (ev1, w1, Thrown e)
       end.

Definition throw {A} (e : Error) : Run W E A := λ w, ([], w, Thrown e).

Definition try_catch {A} (m : Run W E A) (handler : Error → Run W E A) : Run W E A :=
  λ w, match m w with
       | (ev1, w1, Thrown e) =>
           match handler e w1 with
           | (ev2, w2, o) => (ev1 ++ ev2, w2, o)
           end
       | r => r
       end.

Definition emit (e : E) : Run W E unit := λ w, ([e], w, Normal tt).

Definition events {A} (r : list E * W * Outcome A) : list E := r.1.1.
Definition world {A} (r : list E * W * Outcome A) : W := r.1.2.
Definition outcome {A} (r : list E * W * Outcome A) : Outcome A := r.2.

End Run.

#[global] Instance Run_ret {W E} : MRet (Run W E) := @ret W E.
#[global] Instance Run_bind {W E} : MBind (Run W E) := λ A B f m, bind m f.

Module Worker.

(** ** Data of the worker source *)

Record Feature := { f_type : Z; f_geometry : list (list (Z * Z)); f_tags : list (string * Z) }.

(** A tile as the plugin's [getTile] returns it. *)
Record GeoJSONTile := { features : list Feature }.

(** [interface VectorTilePlugin { getTile(z, x, y): any }] *)
Record VectorTilePlugin := { getTile : Z → Z → Z → option GeoJSONTile }.

(** [new GeoJSONWrapper(features)] *)
Record GeoJSONWrapper := { _features : list Feature }.

Record Uint8Array := {
  buffer : list byte;
  byteOffset : nat;
  byteLength : nat
}.

(** [new Uint8Array(pbf)]: a fresh buffer holding exactly the viewed bytes. *)
Definition Uint8Array_copy (a : Uint8Array) : Uint8Array :=
  let bytes := take (byteLength a) (drop (byteOffset a) (buffer a)) in
  {| buffer := bytes; byteOffset := 0; byteLength := length bytes |}.

Record LoadVectorTileResult := {
  vectorTile : GeoJSONWrapper;
  rawData : list byte
}.

Definition GeoJSONVTOptions := list (string * Z).

Record LoadGeoJSONParameters := {
  request : option RequestParameters;
  data : option string;
  source : string;
  geojsonVtOptions : GeoJSONVTOptions
}.

Record WorkerTileParameters := {
  uid : Z;
  tileID : CanonicalTileID   (* params.tileID.canonical *)
}.

Inductive Cancelable :=
| AjaxRequest (id : nat)     (* the handle [getJSON] returns *)
| NoopCancel.                (* [{cancel: () => {}}] *)

(** What a [loaded[uid]] entry stands for. *)
Inductive LoadedMarker := EncodedOnce.

Record WorkerSource := {
  _pendingCallback : option CallbackId;
  _pendingRequest : option Cancelable;
  _vectorTilePlugin : option VectorTilePlugin;
  loaded : option (gmap Z LoadedMarker)
}.

(** The arrow function [loadData] hands to [loadGeoJSON], as the values it
    closes over: [params], [callback] and [perf]. *)
Record DataClosure := {
  cl_params : LoadGeoJSONParameters;
  cl_callback : CallbackId;
  cl_perf : option RequestParameters
}.

(** The worker source together with the requests [getJSON] has in flight. *)
Record World := {
  this : WorkerSource;
  ajax : gmap nat DataClosure;
  nextRequest : nat
}.

Inductive Event :=
| EvCancel (c : Cancelable)
| EvDataCallback (cb : CallbackId) (err : option Error) (result : option LoadDataResult)
| EvLoadGeoJSON (params : LoadGeoJSONParameters)
| EvGetJSON (id : nat) (req : RequestParameters)
| EvTileCallback (cb : CallbackId) (err : option Error) (data : option LoadVectorTileResult)
| EvAck (cb : CallbackId).

(** ** The libraries the worker source calls *)

Class Externals := {
  JSON_parse : string → option JSValue;                (* [None]: throws *)
  rewind : JSValue → Error + JSValue;                  (* rewinds in place, may throw *)
  geojsonvt : JSValue → GeoJSONVTOptions → Error + VectorTilePlugin;
  vtpbf : GeoJSONWrapper → Uint8Array;
  perf_finish : RequestParameters → option ResourceTiming
}.

(** ** The worker source's monad *)

Abbreviation M := (Run World Event).

Definition get_this : M WorkerSource := λ w, ([], w, Normal (this w)).

Definition modify_this (f : WorkerSource → WorkerSource) : M unit :=
  λ w, ([], {| this := f (this w); ajax := ajax w; nextRequest := nextRequest w |},
        Normal tt).

Definition set_pendingCallback (c : option CallbackId) : M unit :=
  modify_this (λ s, {| _pendingCallback := c;
                       _pendingRequest := _pendingRequest s;
                       _vectorTilePlugin := _vectorTilePlugin s;
                       loaded := loaded s |}).

Definition set_pendingRequest (r : option Cancelable) : M unit :=
  modify_this (λ s, {| _pendingCallback := _pendingCallback s;
                       _pendingRequest := r;
                       _vectorTilePlugin := _vectorTilePlugin s;
                       loaded := loaded s |}).

Definition set_vectorTilePlugin (p : option VectorTilePlugin) : M unit :=
  modify_this (λ s, {| _pendingCallback := _pendingCallback s;
                       _pendingRequest := _pendingRequest s;
                       _vectorTilePlugin := p;
                       loaded := loaded s |}).

Definition set_loaded (l : option (gmap Z LoadedMarker)) : M unit :=
  modify_this (λ s, {| _pendingCallback := _pendingCallback s;
                       _pendingRequest := _pendingRequest s;
                       _vectorTilePlugin := _vectorTilePlugin s;
                       loaded := l |}).

(** ** The collaborators on the worker side *)

(** Modelled from the spec: [getJSON] of util/ajax, which is not part of the
    sources at hand.  A request is cancelable before its response arrives and
    a cancelled request is never completed: [getJSON] registers the callback
    under a fresh handle, the handle's [cancel] drops it. *)
Definition getJSON (req : RequestParameters) (callback : DataClosure) : M Cancelable :=
  λ w, let id := nextRequest w in
       ([EvGetJSON id req],
        {| this := this w; ajax := <[id := callback]> (ajax w); nextRequest := S id |},
        Normal (AjaxRequest id)).

Definition forget_request (id : nat) : M unit :=
  λ w, ([], {| this := this w; ajax := delete id (ajax w);
               nextRequest := nextRequest w |}, Normal tt).

Definition cancel (c : Cancelable) : M unit :=
  emit (EvCancel c);;
  match c with
  | AjaxRequest id => forget_request id
  | NoopCancel => mret tt
  end.

(** Invoking a data callback. *)
Definition call_data (cb : CallbackId) (err : option Error)
    (result : option LoadDataResult) : M unit :=
  emit (EvDataCallback cb err result).

Section WithExternals.
Context `{!Externals}.

(** ** [function loadTile(params, callback)]

    The function handed to the superclass as its tile loader; it calls
    [callback] once on every path, so the callback is a continuation. *)
Definition loadTile {A} (self : WorkerSource) (params : WorkerTileParameters)
    (callback : option Error → option LoadVectorTileResult → A) : A :=
  let canonical := tileID params in
  match _vectorTilePlugin self with
  | None => callback None None
  | Some plugin =>
      match getTile plugin (z canonical) (x canonical) (y canonical) with
      | None => callback None None
      | Some geoJSONTile =>
          let geojsonWrapper := {| _features := features geoJSONTile |} in
          let pbf := vtpbf geojsonWrapper in
          let pbf :=
            if negb (Nat.eqb (byteOffset pbf) 0)
               || negb (Nat.eqb (byteLength pbf) (length (buffer pbf)))
            then Uint8Array_copy pbf else pbf in
          callback None (Some {| vectorTile := geojsonWrapper; rawData := buffer pbf |})
      end
  end.

(** ** [loadData]: the callback given to [loadGeoJSON] *)
Definition loadData_response (cl : DataClosure) (err : option Error) (data : JSValue)
    : M unit :=
  let params := cl_params cl in
  let callback := cl_callback cl in
  set_pendingCallback None;;
  set_pendingRequest None;;
  if bool_decide (is_Some err) || falsy data then
    call_data callback err None
  else if negb (typeof_object data) then
    call_data callback (Some (InvalidGeoJSON (source params))) None
  else
    match rewind data with
    | inl e => throw e
    | inr data =>
        match geojsonvt data (geojsonVtOptions params) with
        | inl err => call_data callback (Some err) None
        | inr index =>
            set_vectorTilePlugin (Some index);;
            set_loaded (Some ∅);;
            let result :=
              match cl_perf cl with
              | Some req =>
                  match perf_finish req with
                  | Some resourceTimingData =>
                      {| resourceTiming := Some (source params, resourceTimingData);
                         abandoned := false |}
                  | None => {| resourceTiming := None; abandoned := false |}
                  end
              | None => {| resourceTiming := None; abandoned := false |}
              end in
            call_data callback None (Some result)
        end
    end.

(** ** [loadGeoJSON] *)
Definition loadGeoJSON (params : LoadGeoJSONParameters) (callback : DataClosure)
    : M Cancelable :=
  emit (EvLoadGeoJSON params);;
  match request params with
  | Some req => getJSON req callback
  | None =>
      match data params with
      | Some text =>
          try_catch
            (match JSON_parse text with
             | Some v => loadData_response callback None v
             | None => throw SyntaxError
             end)
            (λ _, loadData_response callback
                    (Some (InvalidGeoJSON (source params))) JUndefined)
      | None =>
          loadData_response callback (Some (InvalidGeoJSON (source params))) JUndefined
      end;;
      mret NoopCancel
  end.

(** ** [loadData] *)
Definition loadData (params : LoadGeoJSONParameters) (callback : CallbackId) : M unit :=
  self ← get_this;
  match _pendingRequest self with
  | Some r => cancel r
  | None => mret tt
  end;;
  self ← get_this;
  match _pendingCallback self with
  | Some previous => call_data previous None (Some result_abandoned)
  | None => mret tt
  end;;
  let perf :=
    match request params with
    | Some req => if collectResourceTiming req then Some req else None
    | None => None
    end in
  set_pendingCallback (Some callback);;
  r ← loadGeoJSON params {| cl_params := params; cl_callback := callback; cl_perf := perf |};
  set_pendingRequest (Some r).

(** ** [removeSource] *)
Definition removeSource (callback : CallbackId) : M unit :=
  self ← get_this;
  match _pendingCallback self with
  | Some pending => call_data pending None (Some result_abandoned)
  | None => mret tt
  end;;
  emit (EvAck callback).

(** ** The inherited tile operations *)

Definition mark_loaded (uid : Z) : M unit :=
  self ← get_this;
  set_loaded (Some (<[uid := EncodedOnce]> (default ∅ (loaded self)))).

(** Modelled from the spec: [VectorTileWorkerSource.loadTile], the inherited
    method, which is not part of the sources at hand.  It runs the tile loader
    it was constructed with (the function [loadTile] above): "reads the
    FeatureSlice for coord (possibly empty), encodes it, marks coord present
    in LoadedTileSet, returns the EncodedTile". *)
Definition super_loadTile (params : WorkerTileParameters) (callback : CallbackId)
    : M unit :=
  self ← get_this;
  loadTile self params (λ err data,
    mark_loaded (uid params);;
    emit (EvTileCallback callback err data)).

(** Modelled from the spec: [VectorTileWorkerSource.reloadTile], the inherited
    method, which is not part of the sources at hand: "if coord is already in
    LoadedTileSet, performs an idempotent re-encode without mutating the
    index". *)
Definition super_reloadTile (params : WorkerTileParameters) (callback : CallbackId)
    : M unit :=
  self ← get_this;
  match loaded self ≫= (.!! uid params) with
  | Some _ =>
      loadTile self params (λ err data, emit (EvTileCallback callback err data))
  | None => mret tt
  end.

(** Modelled from the spec: [VectorTileWorkerSource.removeTile], the inherited
    method, which is not part of the sources at hand: "evicts coord from
    LoadedTileSet and releases its EncodedTile". *)
Definition super_removeTile (uid : Z) (callback : CallbackId) : M unit :=
  self ← get_this;
  set_loaded (delete uid <$> loaded self);;
  emit (EvAck callback).

(** ** [reloadTile] *)
Definition reloadTile (params : WorkerTileParameters) (callback : CallbackId) : M unit :=
  self ← get_this;
  let loaded := loaded self in
  let uid := uid params in
  match loaded ≫= (.!! uid) with
  | Some _ => super_reloadTile params callback
  | None => super_loadTile params callback
  end.

(** ** Runs of the worker source *)

(** What can happen to a worker source: the messages it is sent and the
    completion of a request [getJSON] has in flight. *)
Inductive Op :=
| OpLoadData (params : LoadGeoJSONParameters) (callback : CallbackId)
| OpResponse (id : nat) (err : option Error) (data : JSValue)
| OpLoadTile (params : WorkerTileParameters) (callback : CallbackId)
| OpReloadTile (params : WorkerTileParameters) (callback : CallbackId)
| OpRemoveTile (uid : Z) (callback : CallbackId)
| OpRemoveSource (callback : CallbackId).

(** The response to request [id] arrives: its callback runs, once. *)
Definition response (id : nat) (err : option Error) (data : JSValue) : M unit :=
  λ w, match ajax w !! id with
       | Some callback =>
           (forget_request id;; loadData_response callback err data) w
       | None => ([], w, Normal tt)
       end.

Definition step (op : Op) : M unit :=
  match op with
  | OpLoadData params callback => loadData params callback
  | OpResponse id err data => response id err data
  | OpLoadTile params callback => super_loadTile params callback
  | OpReloadTile params callback => reloadTile params callback
  | OpRemoveTile uid callback => super_removeTile uid callback
  | OpRemoveSource callback => removeSource callback
  end.

Fixpoint exec (ops : list Op) (w : World) : World :=
  match ops with
  | [] => w
  | op :: ops => exec ops (world (step op w))
  end.

Fixpoint trace (ops : list Op) (w : World) : list Event :=
  match ops with
  | [] => []
  | op :: ops => events (step op w) ++ trace ops (world (step op w))
  end.

(** The spatial index and the set of loaded tiles are those of [w]. *)
Definition same_index (w w' : World) : Prop :=
  _vectorTilePlugin (this w') = _vectorTilePlugin (this w)
  ∧ loaded (this w') = loaded (this w).

(** The pending request and callback and the requests in flight are those
    of [w]. *)
Definition same_pending (w w' : World) : Prop :=
  _pendingCallback (this w') = _pendingCallback (this w)
  ∧ _pendingRequest (this w') = _pendingRequest (this w)
  ∧ ajax w' = ajax w.

(** How [loadData] begins: the pending request is cancelled, the pending
    callback is told it has been abandoned. *)
Definition cancel_previous (w : World) : list Event :=
  match _pendingRequest (this w) with
  | Some r => [EvCancel r]
  | None => []
  end.

Definition abandon_previous (w : World) : list Event :=
  match _pendingCallback (this w) with
  | Some previous => [EvDataCallback previous None (Some result_abandoned)]
  | None => []
  end.

(** The requests still in flight once the pending one has been cancelled. *)
Definition ajax_after_cancel (w : World) : gmap nat DataClosure :=
  match _pendingRequest (this w) with
  | Some (AjaxRequest id) => delete id (ajax w)
  | _ => ajax w
  end.

(** The closure [loadData] builds for [params] and [callback]. *)
Definition closure_of (params : LoadGeoJSONParameters) (callback : CallbackId)
    : DataClosure :=
  {| cl_params := params; cl_callback := callback;
     cl_perf := match request params with
                | Some req => if collectResourceTiming req then Some req else None
                | None => None
                end |}.

(** Every request in flight is the pending one and belongs to the most
    recent [loadData] call, and so does the pending callback. *)
Definition in_flight_is_latest (w : World) (latest : option CallbackId) : Prop :=
  (∀ id cl, ajax w !! id = Some cl →
     _pendingRequest (this w) = Some (AjaxRequest id) ∧ latest = Some (cl_callback cl))
  ∧ (∀ pending, _pendingCallback (this w) = Some pending → latest = Some pending).

Definition latest_after (latest : option CallbackId) (op : Op) : option CallbackId :=
  match op with
  | OpLoadData _ callback => Some callback
  | _ => latest
  end.

(** The bytes a [Uint8Array] views. *)
Definition viewed (a : Uint8Array) : list byte :=
  take (byteLength a) (drop (byteOffset a) (buffer a)).

(** The tile the index holds for [params], wrapped and encoded. *)
Definition encoded_tile (self : WorkerSource) (params : WorkerTileParameters)
    : option LoadVectorTileResult :=
  plugin ← _vectorTilePlugin self;
  tile ← getTile plugin (z (tileID params)) (x (tileID params)) (y (tileID params));
  let wrapper := {| _features := features tile |} in
  Some {| vectorTile := wrapper; rawData := viewed (vtpbf wrapper) |}.

(** A data load has failed: a data callback was handed an error, or was
    invoked without a result ([callback(err)], also when [err] is [null]:
    there was no data), or the exception of a library went through. *)
Definition load_failed (r : list Event * World * Outcome unit) : Prop :=
  (∃ cb e res, EvDataCallback cb (Some e) res ∈ events r)
  ∨ (∃ cb err, EvDataCallback cb err None ∈ events r)
  ∨ (∃ e, outcome r = Thrown e).

(** The spec's "releases the SpatialIndex and LoadedTileSet entirely". *)
Definition spec_released (self : WorkerSource) : Prop :=
  _vectorTilePlugin self = None ∧ (loaded self = None ∨ loaded self = Some ∅).

(** The spec's "fails with NotReadyError": the tile callback is handed an
    error. *)
Definition spec_not_ready (self : WorkerSource) (params : WorkerTileParameters) : Prop :=
  ∃ e, loadTile self params (λ err _, err) = Some e.

(** A freshly constructed worker source: nothing is pending, there is no
    index.  Modelled from the spec: the inherited [loaded], set up by the
    constructor of [VectorTileWorkerSource], starts empty. *)
Definition new_source : WorkerSource :=
  {| _pendingCallback := None; _pendingRequest := None;
     _vectorTilePlugin := None; loaded := Some ∅ |}.

Definition new_world : World :=
  {| this := new_source; ajax := ∅; nextRequest := 0 |}.

(** The callback of the most recent [loadData] call. *)
Fixpoint latest_callback (ops : list Op) : option CallbackId :=
  match ops with
  | [] => None
  | op :: ops =>
      match latest_callback ops with
      | Some cb => Some cb
      | None => match op with OpLoadData _ cb => Some cb | _ => None end
      end
  end.

Definition is_abandoned (result : option LoadDataResult) : bool :=
  match result with
  | Some r => abandoned r
  | None => false
  end.

End WithExternals.

(** ** A small instance of the libraries, to run the definitions on *)
Module Toy.

Definition square : Feature :=
  {| f_type := 3; f_geometry := [[(0, 0); (4096, 0); (4096, 4096); (0, 4096); (0, 0)]];
     f_tags := [] |}.

(** An index holding one polygon that covers tile (0,0,0) and nothing else. *)
Definition index : VectorTilePlugin :=
  {| getTile := λ z x y,
       if (z =? 0) && (x =? 0) && (y =? 0) then Some {| features := [square] |}
       else None |}.

Definition libs : Externals :=
  {| JSON_parse := λ text,
       if decide (text = "{}"%string) then Some (JObject [])
       else if decide (text = "null"%string) then Some JNull
       else if decide (text = "1"%string) then Some (JNumber 1)
       else if decide (text = "[]"%string) then Some (JArray [])
       else None;
     rewind := λ v, inr v;
     geojsonvt := λ v _,
       match v with
       | JObject _ => inr index
       | _ => inl (LibraryError "geojson-vt")
       end;
     vtpbf := λ w,
       {| buffer := ["0"%byte; "1"%byte; "2"%byte; "3"%byte];
          byteOffset := 1; byteLength := length (_features w) |};
     perf_finish := λ _, Some [1; 2] |}.

Definition inline (text : string) : LoadGeoJSONParameters :=
  {| request := None; data := Some text; source := "s"; geojsonVtOptions := [] |}.

Definition remote (u : string) : LoadGeoJSONParameters :=
  {| request := Some {| url := u; collectResourceTiming := true |};
     data := None; source := "s"; geojsonVtOptions := [] |}.

Definition tile000 : WorkerTileParameters :=
  {| uid := 7; tileID := {| z := 0; x := 0; y := 0 |} |}.

Definition tile111 : WorkerTileParameters :=
  {| uid := 8; tileID := {| z := 1; x := 1; y := 1 |} |}.

(** The worker source once the inline data has been loaded and tile (0,0,0)
    encoded. *)
Definition loaded_world : World :=
  @exec libs [OpLoadData (inline "{}") 1; OpLoadTile tile000 2] new_world.

End Toy.

(** ** More about runs of the worker source *)

(** A request is in flight exactly when a callback is pending, and it is the
    pending request, kept for the pending callback. *)
Definition pending_matches (w : World) : Prop :=
  (∀ id cl, ajax w !! id = Some cl →
     _pendingRequest (this w) = Some (AjaxRequest id)
     ∧ _pendingCallback (this w) = Some (cl_callback cl))
  ∧ (∀ pending, _pendingCallback (this w) = Some pending →
       ∃ id cl, ajax w !! id = Some cl).

(** The operations of a data load: the call and the response to its
    request.  The others are the tile operations and [removeSource]. *)
Definition data_op (op : Op) : bool :=
  match op with
  | OpLoadData _ _ | OpResponse _ _ _ => true
  | _ => false
  end.

(** The operations that neither start a data load nor answer request [id]. *)
Definition leaves_in_flight (id : nat) (op : Op) : bool :=
  match op with
  | OpLoadData _ _ => false
  | OpResponse id' _ _ => negb (id' =? id)%nat
  | _ => true
  end.

(** The worker source once the callback of [loadData] has deleted the
    pending callback and the pending request. *)
Definition cleared (w : World) : World :=
  {| this := {| _pendingCallback := None; _pendingRequest := None;
               _vectorTilePlugin := _vectorTilePlugin (this w);
               loaded := loaded (this w) |};
     ajax := ajax w; nextRequest := nextRequest w |}.

(** The worker source once the callback of [loadData] has installed
    [index]. *)
Definition installed (index : VectorTilePlugin) (w : World) : World :=
  {| this := {| _pendingCallback := None; _pendingRequest := None;
               _vectorTilePlugin := Some index; loaded := Some ∅ |};
     ajax := ajax w; nextRequest := nextRequest w |}.

(** The errors an inline load can report. *)
Definition inline_load_error `{!Externals} (params : LoadGeoJSONParameters)
    (e : Error) : Prop :=
  e = InvalidGeoJSON (source params)
  ∨ ∃ text v v',
      data params = Some text ∧ JSON_parse text = Some v
      ∧ rewind v = inr v'
      ∧ geojsonvt v' (geojsonVtOptions params) = inl e.

(** ** Libraries whose [rewind] throws on an array, and a worker source with
    a remote load in flight *)
Module Sample.

Definition libs : Externals :=
  {| JSON_parse := @JSON_parse Toy.libs;
     rewind := λ v,
       match v with
       | JArray _ => inl (LibraryError "rewind")
       | _ => inr v
       end;
     geojsonvt := @geojsonvt Toy.libs;
     vtpbf := @vtpbf Toy.libs;
     perf_finish := @perf_finish Toy.libs |}.

Definition pending_world : World :=
  @exec libs [OpLoadData (Toy.remote "a") 1] new_world.

End Sample.

End Worker.

Module Source.

(** ** Data of the source on the main thread *)

(** [MapSourceDataType] *)
Inductive SourceDataType := metadata | content.

(** [GeoJSON.GeoJSON | string]: a URL when it is a string. *)
Inductive SourceData :=
| DataURL (url : string)
| DataObject (geojson : JSValue).

Definition OptionsBag := list (string * JSValue).

(** The options sent with [loadData]: the worker options, extended with
    either [request] or [data]. *)
Record LoadDataOptions := {
  lo_workerOptions : OptionsBag;
  lo_request : option RequestParameters;
  lo_data : option string
}.

Record OverscaledTileID := { overscaledZ : Z; canonical : CanonicalTileID }.

Record TileParameters := {
  tp_type : string;
  tp_uid : Z;
  tp_tileID : OverscaledTileID;
  tp_zoom : Z;
  tp_maxZoom : Z;
  tp_tileSize : Z;
  tp_source : string;
  tp_pixelRatio : Z;
  tp_showCollisionBoxes : bool;
  tp_promoteId : option string
}.

Inductive Message :=
| MsgLoadData (type : string) (options : LoadDataOptions)   (* `${type}.loadData` *)
| MsgLoadTile (params : TileParameters)
| MsgReloadTile (params : TileParameters)
| MsgRemoveTile (uid : Z) (type source : string)
| MsgRemoveSource (type source : string).

(** What the far side answers with: [result] is untyped in the source. *)
Inductive Payload :=
| DataResult (result : LoadDataResult)
| TileResult (rawData : list byte).

Record CustomVectorTileSource := {
  id : string;
  type : string;
  minzoom : Z;
  maxzoom : Z;
  tileSize : Z;
  attribution : option string;
  promoteId : option string;
  isTileClipped : bool;
  reparseOverscaled : bool;
  _data : SourceData;
  workerOptions : OptionsBag;
  _pendingLoads : Z;
  _collectResourceTiming : bool;
  _removed : bool
}.

(** The fields of a [Tile] the source reads and writes, and the vector data
    the tile holds. *)
Record Tile := {
  uid : Z;
  tileID : OverscaledTileID;
  actor : bool;                      (* is [tile.actor] set *)
  request : option nat;              (* the handle of the call in flight *)
  aborted : bool;
  vectorData : option (option Payload * bool)   (* data and [justReloaded] *)
}.

(** [map.getPixelRatio()] and [map.showCollisionBoxes]. *)
Record Map := { pixelRatio : Z; showCollisionBoxes : bool }.

(** The module-level [planet]. *)
Record Planet := { getTile : Z → Z → Z → JSValue }.

(** The callbacks handed to [actor.send], as the values they close over. *)
Inductive ActorCallback :=
| UpdateWorkerDataCallback (sourceDataType : SourceDataType)
| LoadTileCallback (tile : nat) (message_is_reload : bool) (callback : CallbackId)
| NoCallback.

(** The source, the map it has been added to ([map: Map] in the source), the
    module-level [planet], the tile objects and the actor's table. *)
Record World := {
  source : CustomVectorTileSource;
  map : Map;
  planet : option Planet;
  tiles : gmap nat Tile;              (* the tile objects, by reference *)
  calls : gmap nat ActorCallback;     (* the actor's outstanding calls *)
  nextCall : nat
}.

(** The notifications the source fires. *)
Inductive Notification :=
| dataloading                                   (* Event('dataloading', {dataType: 'source'}) *)
| dataabort (sourceDataType : SourceDataType)    (* Event('dataabort', ...) *)
| error (err : Error)                           (* ErrorEvent(err) *)
| data (sourceDataType : SourceDataType) (resourceTiming : option ResourceTiming).

Inductive Event :=
| EvFire (e : Notification)
| EvSend (call : nat) (message : Message)
| EvCancel (call : nat)
| EvCallback (callback : CallbackId) (err : option Error)
| EvUnloadVectorData (tile : nat)
| EvLoadVectorData (tile : nat) (data : option Payload) (justReloaded : bool)
| EvConsoleLog (res : JSValue)
| EvConsoleError (text : string).

Abbreviation M := (Run World Event).

Class Externals := {
  JSON_stringify : JSValue → option string;
  transformRequest : string → RequestParameters   (* of the resolved URL *)
}.

Definition get_world : M World := λ w, ([], w, Normal w).

Definition modify_source (f : CustomVectorTileSource → CustomVectorTileSource) : M unit :=
  λ w, ([], {| source := f (source w); map := map w; planet := planet w;
               tiles := tiles w; calls := calls w; nextCall := nextCall w |},
        Normal tt).

Definition set_tiles (t : gmap nat Tile) : M unit :=
  λ w, ([], {| source := source w; map := map w; planet := planet w;
               tiles := t; calls := calls w; nextCall := nextCall w |},
        Normal tt).

Definition set_data (d : SourceData) (s : CustomVectorTileSource) :=
  {| id := id s; type := type s; minzoom := minzoom s; maxzoom := maxzoom s;
     tileSize := tileSize s; attribution := attribution s; promoteId := promoteId s;
     isTileClipped := isTileClipped s; reparseOverscaled := reparseOverscaled s;
     _data := d; workerOptions := workerOptions s;
     _pendingLoads := _pendingLoads s;
     _collectResourceTiming := _collectResourceTiming s; _removed := _removed s |}.

Definition set_pendingLoads (n : Z) (s : CustomVectorTileSource) :=
  {| id := id s; type := type s; minzoom := minzoom s; maxzoom := maxzoom s;
     tileSize := tileSize s; attribution := attribution s; promoteId := promoteId s;
     isTileClipped := isTileClipped s; reparseOverscaled := reparseOverscaled s;
     _data := _data s; workerOptions := workerOptions s;
     _pendingLoads := n;
     _collectResourceTiming := _collectResourceTiming s; _removed := _removed s |}.

Definition set_removed (b : bool) (s : CustomVectorTileSource) :=
  {| id := id s; type := type s; minzoom := minzoom s; maxzoom := maxzoom s;
     tileSize := tileSize s; attribution := attribution s; promoteId := promoteId s;
     isTileClipped := isTileClipped s; reparseOverscaled := reparseOverscaled s;
     _data := _data s; workerOptions := workerOptions s;
     _pendingLoads := _pendingLoads s;
     _collectResourceTiming := _collectResourceTiming s; _removed := b |}.

Definition set_tile_actor (t : Tile) : Tile :=
  {| uid := uid t; tileID := tileID t; actor := true; request := request t;
     aborted := aborted t; vectorData := vectorData t |}.

Definition set_tile_request (r : option nat) (t : Tile) : Tile :=
  {| uid := uid t; tileID := tileID t; actor := actor t; request := r;
     aborted := aborted t; vectorData := vectorData t |}.

Definition set_tile_aborted (t : Tile) : Tile :=
  {| uid := uid t; tileID := tileID t; actor := actor t; request := request t;
     aborted := true; vectorData := vectorData t |}.

(** Modelled from the spec: [Tile.unloadVectorData], which is not part of the
    sources at hand: it "discards vector data previously held". *)
Definition unloadVectorData (t : Tile) : Tile :=
  {| uid := uid t; tileID := tileID t; actor := actor t; request := request t;
     aborted := aborted t; vectorData := None |}.

(** Modelled from the spec: [Tile.loadVectorData(data, painter, justReloaded)],
    which is not part of the sources at hand: the tile holds the data
    delivered to it. *)
Definition loadVectorData (data : option Payload) (justReloaded : bool) (t : Tile) : Tile :=
  {| uid := uid t; tileID := tileID t; actor := actor t; request := request t;
     aborted := aborted t; vectorData := Some (data, justReloaded) |}.

(** A tile object is reached through its reference; there is no method to
    call on a reference that denotes nothing. *)
Definition get_tile (tile : nat) : M Tile :=
  λ w, match tiles w !! tile with
       | Some t => ([], w, Normal t)
       | None => ([], w, Thrown (LibraryError "TypeError"))
       end.

Definition modify_tile (tile : nat) (f : Tile → Tile) : M unit :=
  w ← get_world;
  set_tiles (alter f tile (tiles w)).

(** [tile.unloadVectorData()] and [tile.loadVectorData(data, painter,
    justReloaded)]: the call is recorded, the tile object changes. *)
Definition tile_unloadVectorData (tile : nat) : M unit :=
  emit (EvUnloadVectorData tile);;
  modify_tile tile unloadVectorData.

Definition tile_loadVectorData (tile : nat) (data : option Payload)
    (justReloaded : bool) : M unit :=
  emit (EvLoadVectorData tile data justReloaded);;
  modify_tile tile (loadVectorData data justReloaded).

(** ** The actor *)

(** Modelled from the spec: [Actor.send] of util/actor, which is not part of
    the sources at hand: an "asynchronous request/response transport with
    named operations and a cancel handle per outstanding call".  A call with
    a callback stays outstanding until its response arrives; the cancel handle
    tells the far side, and a response that is already under way may still
    arrive. *)
Definition actor_send (message : Message) (callback : ActorCallback) : M nat :=
  λ w, let call := nextCall w in
       ([EvSend call message],
        {| source := source w; map := map w; planet := planet w; tiles := tiles w;
           calls := match callback with
                    | NoCallback => calls w
                    | _ => <[call := callback]> (calls w)
                    end;
           nextCall := S call |},
        Normal call).

Definition actor_cancel (call : nat) : M unit := emit (EvCancel call).

Definition forget_call (call : nat) : M unit :=
  λ w, ([], {| source := source w; map := map w; planet := planet w; tiles := tiles w;
               calls := delete call (calls w); nextCall := nextCall w |},
        Normal tt).

Section WithExternals.
Context `{!Externals}.

(** ** [_updateWorkerData] and its callback *)

Definition result_is_abandoned (result : option Payload) : bool :=
  match result with
  | Some (DataResult r) => abandoned r
  | _ => false
  end.

(** [result && result.resourceTiming && result.resourceTiming[this.id]] *)
Definition result_resourceTiming (self : CustomVectorTileSource)
    (result : option Payload) : option ResourceTiming :=
  match result with
  | Some (DataResult r) =>
      match resourceTiming r with
      | Some (name, entries) => if decide (name = id self) then Some entries else None
      | None => None
      end
  | _ => None
  end.

Definition _updateWorkerData_callback (sourceDataType : SourceDataType)
    (err : option Error) (result : option Payload) : M unit :=
  modify_source (λ s, set_pendingLoads (_pendingLoads s - 1) s);;
  w ← get_world;
  let self := source w in
  if _removed self || result_is_abandoned result then
    emit (EvFire (dataabort sourceDataType))
  else
    let resourceTiming := result_resourceTiming self result in
    match err with
    | Some e => emit (EvFire (error e))
    | None =>
        emit (EvFire (data sourceDataType
          match resourceTiming with
          | Some entries =>
              if _collectResourceTiming self && bool_decide (0 < length entries)%nat
              then Some entries else None
          | None => None
          end))
    end.

Definition _updateWorkerData (sourceDataType : SourceDataType) : M unit :=
  w ← get_world;
  let self := source w in
  let options :=
    match _data self with
    | DataURL u =>
        {| lo_workerOptions := workerOptions self;
           lo_request := Some {| url := url (transformRequest u);
                                 collectResourceTiming := _collectResourceTiming self |};
           lo_data := None |}
    | DataObject v =>
        {| lo_workerOptions := workerOptions self;
           lo_request := None;
           lo_data := JSON_stringify v |}
    end in
  modify_source (λ s, set_pendingLoads (_pendingLoads s + 1) s);;
  emit (EvFire dataloading);;
  actor_send (MsgLoadData (type self) options) (UpdateWorkerDataCallback sourceDataType);;
  mret tt.

Definition load : M unit := _updateWorkerData metadata.

Definition onAdd (m : Map) : M unit :=
  (λ w, ([], {| source := source w; map := m; planet := planet w; tiles := tiles w;
                calls := calls w; nextCall := nextCall w |}, Normal tt));;
  load.

Definition setData (d : SourceData) : M unit :=
  modify_source (set_data d);;
  _updateWorkerData content.

Definition loaded (self : CustomVectorTileSource) : bool :=
  _pendingLoads self =? 0.

(** ** [loadTile] and its callback *)

Definition loadTile_callback (tile : nat) (message_is_reload : bool)
    (callback : CallbackId) (err : option Error) (data : option Payload) : M unit :=
  modify_tile tile (set_tile_request None);;
  tile_unloadVectorData tile;;
  t ← get_tile tile;
  if aborted t then
    emit (EvCallback callback None)
  else
    match err with
    | Some e => emit (EvCallback callback (Some e))
    | None =>
        tile_loadVectorData tile data message_is_reload;;
        emit (EvCallback callback None)
    end.

Definition loadTile (tile : nat) (callback : CallbackId) : M unit :=
  t ← get_tile tile;
  w ← get_world;
  let self := source w in
  let message_is_reload := actor t in
  modify_tile tile set_tile_actor;;
  let params :=
    {| tp_type := type self;
       tp_uid := uid t;
       tp_tileID := tileID t;
       tp_zoom := overscaledZ (tileID t);
       tp_maxZoom := maxzoom self;
       tp_tileSize := tileSize self;
       tp_source := id self;
       tp_pixelRatio := pixelRatio (map w);
       tp_showCollisionBoxes := showCollisionBoxes (map w);
       tp_promoteId := promoteId self |} in
  match planet w with
  | Some planet =>
      let c := canonical (tileID t) in
      let res := getTile planet (z c) (x c) (y c) in
      emit (EvConsoleLog res)
  | None => mret tt
  end;;
  r ← actor_send (if message_is_reload then MsgReloadTile params else MsgLoadTile params)
        (LoadTileCallback tile message_is_reload callback);
  modify_tile tile (set_tile_request (Some r)).

Definition abortTile (tile : nat) : M unit :=
  t ← get_tile tile;
  match request t with
  | Some r => actor_cancel r;; modify_tile tile (set_tile_request None)
  | None => mret tt
  end;;
  modify_tile tile set_tile_aborted.

Definition unloadTile (tile : nat) : M unit :=
  t ← get_tile tile;
  tile_unloadVectorData tile;;
  w ← get_world;
  actor_send (MsgRemoveTile (uid t) (type (source w)) (id (source w))) NoCallback;;
  mret tt.

Definition onRemove : M unit :=
  modify_source (set_removed true);;
  w ← get_world;
  actor_send (MsgRemoveSource (type (source w)) (id (source w))) NoCallback;;
  mret tt.

(** ** Runs of the source *)

Inductive Op :=
| OpOnAdd (m : Map)
| OpLoad
| OpSetData (d : SourceData)
| OpLoadTile (tile : nat) (callback : CallbackId)
| OpAbortTile (tile : nat)
| OpUnloadTile (tile : nat)
| OpOnRemove
| OpReply (call : nat) (err : option Error) (result : option Payload).

(** The response to an outstanding call arrives: its callback runs, once. *)
Definition reply (call : nat) (err : option Error) (result : option Payload) : M unit :=
  λ w, match calls w !! call with
       | Some (UpdateWorkerDataCallback sourceDataType) =>
           (forget_call call;; _updateWorkerData_callback sourceDataType err result) w
       | Some (LoadTileCallback tile message_is_reload callback) =>
           (forget_call call;;
            loadTile_callback tile message_is_reload callback err result) w
       | Some NoCallback => forget_call call w
       | None => ([], w, Normal tt)
       end.

Definition step (op : Op) : M unit :=
  match op with
  | OpOnAdd m => onAdd m
  | OpLoad => load
  | OpSetData d => setData d
  | OpLoadTile tile callback => loadTile tile callback
  | OpAbortTile tile => abortTile tile
  | OpUnloadTile tile => unloadTile tile
  | OpOnRemove => onRemove
  | OpReply call err result => reply call err result
  end.

Fixpoint exec (ops : list Op) (w : World) : World :=
  match ops with
  | [] => w
  | op :: ops => exec ops (world (step op w))
  end.

End WithExternals.

(** ** The constructor *)

Record Options := {
  o_data : SourceData;
  o_maxzoom : option Z;
  o_type : option string;
  o_attribution : option string;
  o_promoteId : option string;
  o_collectResourceTiming : bool
}.

Definition truthy_string (s : option string) : option string :=
  match s with
  | Some EmptyString => None
  | other => other
  end.

(** The worker options ([source], [geojsonVtOptions] with its scaled buffer
    and tolerance, extended with [options.workerOptions]) are carried as an
    opaque bag. *)
Definition constructor (id : string) (options : Options) (workerOptions : OptionsBag)
    : CustomVectorTileSource :=
  {| id := id;
     type := default "custom"%string (truthy_string (o_type options));
     minzoom := 0;
     maxzoom := default 18 (o_maxzoom options);
     tileSize := 512;
     attribution := truthy_string (o_attribution options);
     promoteId := o_promoteId options;
     isTileClipped := true;
     reparseOverscaled := true;
     _data := o_data options;
     workerOptions := workerOptions;
     _pendingLoads := 0;
     _collectResourceTiming := o_collectResourceTiming options;
     _removed := false |}.

(** What the constructor writes to the console:
    [if (!planet) console.error('planet-node is missing')]. *)
Definition constructor_log (p : option Planet) : list Event :=
  match p with
  | Some _ => []
  | None => [EvConsoleError "planet-node is missing"]
  end.

(** A freshly constructed source, with the tile objects and the [planet]
    there are; no call is outstanding. *)
Definition new_world (self : CustomVectorTileSource) (m : Map) (p : option Planet)
    (ts : gmap nat Tile) : World :=
  {| source := self; map := m; planet := p; tiles := ts; calls := ∅; nextCall := 0 |}.

(** The data loads the actor has outstanding. *)
Definition is_load_call (entry : nat * ActorCallback) : Prop :=
  match entry.2 with
  | UpdateWorkerDataCallback _ => True
  | _ => False
  end.

#[global] Instance is_load_call_dec entry : Decision (is_load_call entry).
Proof. unfold is_load_call. destruct (entry.2); apply _. Defined.

Definition outstanding_loads (w : World) : nat :=
  size (filter is_load_call (calls w)).

(** [setPlanetVectorTilePlugin(planetNode)] *)
Definition setPlanetVectorTilePlugin (planetNode : option Planet) (w : World) : World :=
  {| source := source w; map := map w; planet := planetNode; tiles := tiles w;
     calls := calls w; nextCall := nextCall w |}.

(** What the tile of [t] is logged as when the [planet] is asked for it. *)
Definition planet_log (w : World) (tile : nat) : list Event :=
  match planet w, tiles w !! tile with
  | Some p, Some t =>
      let c := canonical (tileID t) in [EvConsoleLog (getTile p (z c) (x c) (y c))]
  | _, _ => []
  end.

(** The spec's "bypasses SpatialIndex entirely": nothing is sent to the
    worker. *)
Definition spec_bypasses_index (r : list Event * World * Outcome unit) : Prop :=
  ∀ call message, EvSend call message ∉ events r.

(** The tile keeps its [aborted] mark under [f]. *)
Definition keeps_aborted (f : Tile → Tile) : Prop :=
  ∀ t, aborted t = true → aborted (f t) = true.

Definition tile_aborted (w : World) (tile : nat) : Prop :=
  ∃ t, tiles w !! tile = Some t ∧ aborted t = true.

(** The counter of pending loads counts the outstanding data loads, and the
    handles of the outstanding calls have been given out. *)
Definition counter_invariant (w : World) : Prop :=
  _pendingLoads (source w) = Z.of_nat (outstanding_loads w)
  ∧ ∀ call, is_Some (calls w !! call) → (call < nextCall w)%nat.

(** ** A small source, to run the definitions on *)
Module Toy.

Definition libs : Externals :=
  {| JSON_stringify := λ _, Some "{}"%string;
     transformRequest := λ u, {| url := u; collectResourceTiming := false |} |}.

Definition options : Options :=
  {| o_data := DataObject (JObject []); o_maxzoom := None; o_type := None;
     o_attribution := None; o_promoteId := None; o_collectResourceTiming := true |}.

Definition tile0 : Tile :=
  {| uid := 7;
     tileID := {| overscaledZ := 0; canonical := {| z := 0; x := 0; y := 0 |} |};
     actor := false; request := None; aborted := false;
     vectorData := Some (Some (TileResult ["0"%byte]), false) |}.

Definition map0 : Map := {| pixelRatio := 1; showCollisionBoxes := false |}.

(** A provider that has a tile for every coordinate. *)
Definition planet0 : Planet :=
  {| getTile := λ _ _ _, JObject [("features"%string, JArray [JNumber 1])] |}.

Definition world0 : World :=
  new_world (constructor "s" options []) map0 None {[ 0%nat := tile0 ]}.

Definition world_with_planet : World :=
  setPlanetVectorTilePlugin (Some planet0) world0.

End Toy.

(** ** More about runs of the source *)

(** The tile an operation works on, if it works on one. *)
Definition op_subject (w : World) (op : Op) : option nat :=
  match op with
  | OpLoadTile tile _ | OpAbortTile tile | OpUnloadTile tile => Some tile
  | OpReply call _ _ =>
      match calls w !! call with
      | Some (LoadTileCallback tile _ _) => Some tile
      | _ => None
      end
  | _ => None
  end.

(** Does the operation start or end a data load. *)
Definition is_data_load (w : World) (op : Op) : bool :=
  match op with
  | OpOnAdd _ | OpLoad | OpSetData _ => true
  | OpReply call _ _ =>
      match calls w !! call with
      | Some (UpdateWorkerDataCallback _) => true
      | _ => false
      end
  | _ => false
  end.

(** A property of tiles that no method of the source undoes. *)
Definition kept_by_the_source (P : Tile → Prop) : Prop :=
  (∀ t, P t → P (set_tile_actor t))
  ∧ (∀ r t, P t → P (set_tile_request r t))
  ∧ (∀ t, P t → P (set_tile_aborted t))
  ∧ (∀ t, P t → P (unloadVectorData t))
  ∧ (∀ d b t, P t → P (loadVectorData d b t)).

End Source.

Module WorkerProofs.
Import Worker.

(** Running a method: unfold the monad down to the decisions it takes. *)
Ltac run :=
  cbv [mbind mret Run_bind Run_ret bind ret throw try_catch emit events world outcome
       get_this modify_this set_pendingCallback set_pendingRequest
       set_vectorTilePlugin set_loaded call_data forget_request cancel getJSON
       mark_loaded] in *;
  cbn [fst snd this ajax nextRequest _pendingCallback _pendingRequest
       _vectorTilePlugin loaded cl_params cl_callback cl_perf app] in *.

(** Running a method whose cases are known: name its result, keep the
    facts about it. *)
Ltac name_result H :=
  cbv zeta in H;
  match type of H with
  | context [events ?r] =>
      let ev := fresh "ev" in let w' := fresh "w'" in let o := fresh "o" in
      destruct r as [[ev w'] o]; cbn [events world outcome fst snd] in H
  end.

(** A list of events without a data callback that was not abandoned. *)
Ltac no_fresh_result :=
  decompose_list_elem_of; simplify_eq; done.

Section Facts.
Context `{!Externals}.

Lemma viewed_whole (a : Uint8Array) :
  byteOffset a = 0%nat → byteLength a = length (buffer a) → buffer a = viewed a.
Proof.
  intros Ho Hl. unfold viewed. rewrite Ho, Hl, drop_0. by rewrite take_ge.
Qed.

Lemma rawData_is_viewed (pbf : Uint8Array) :
  buffer (if negb (Nat.eqb (byteOffset pbf) 0)
             || negb (Nat.eqb (byteLength pbf) (length (buffer pbf)))
          then Uint8Array_copy pbf else pbf) = viewed pbf.
Proof.
  destruct (Nat.eqb_spec (byteOffset pbf) 0) as [Ho|]; [|done].
  destruct (Nat.eqb_spec (byteLength pbf) (length (buffer pbf))) as [Hl|]; [|done].
  by apply viewed_whole.
Qed.

Lemma loadTile_result {A} self params
    (callback : option Error → option LoadVectorTileResult → A) :
  loadTile self params callback = callback None (encoded_tile self params).
Proof.
  unfold loadTile, encoded_tile.
  destruct (_vectorTilePlugin self) as [plugin|]; cbn; [|done].
  destruct (getTile plugin _ _ _) as [tile|]; cbn; [|done].
  by rewrite rawData_is_viewed.
Qed.

Lemma removeSource_world callback w : world (removeSource callback w) = w.
Proof.
  unfold removeSource. run.
  destruct w as [[cb r p l] a n]; cbn. by destruct cb.
Qed.

(** What the callback of [loadData] does when the data arrives: it clears
    the pending fields; then it either installs a new index, empties the set
    of loaded tiles and reports success, or leaves both alone and reports
    the failure (or lets the exception of [rewind] through). *)
Lemma loadData_response_cases cl err data w :
  let r := loadData_response cl err data w in
  _pendingCallback (this (world r)) = None
  ∧ _pendingRequest (this (world r)) = None
  ∧ ajax (world r) = ajax w
  ∧ nextRequest (world r) = nextRequest w
  ∧ ((∃ index res,
        events r = [EvDataCallback (cl_callback cl) None (Some res)]
        ∧ abandoned res = false
        ∧ outcome r = Normal tt
        ∧ err = None
        ∧ _vectorTilePlugin (this (world r)) = Some index
        ∧ loaded (this (world r)) = Some ∅)
     ∨ (same_index w (world r)
        ∧ ((∃ e, events r = [] ∧ outcome r = Thrown e)
           ∨ (∃ err', events r = [EvDataCallback (cl_callback cl) err' None]
                      ∧ outcome r = Normal tt
                      ∧ (is_Some err → err' = err))))).
Proof.
  unfold loadData_response, same_index. run.
  destruct err as [e|]; cbn.
  { repeat split; try done. right. repeat split; try done.
    right. eexists. by repeat split. }
  destruct (falsy data); cbn.
  { repeat split; try done. right. repeat split; try done.
    right. eexists. by repeat split. }
  destruct (typeof_object data); cbn.
  2:{ repeat split; try done. right. repeat split; try done.
      right. eexists. by repeat split. }
  destruct (rewind data) as [e|data']; cbn.
  { repeat split; try done. right. repeat split; try done. left. by eexists. }
  destruct (geojsonvt data' _) as [e|index]; cbn.
  { repeat split; try done. right. repeat split; try done.
    right. eexists. by repeat split. }
  repeat split; try done. left.
  destruct (cl_perf cl) as [req|]; [destruct (perf_finish req)|];
    do 2 eexists; by repeat split.
Qed.

Lemma loadGeoJSON_cases params cl w :
  let r := loadGeoJSON params cl w in
  (∃ req, request params = Some req
     ∧ events r = [EvLoadGeoJSON params; EvGetJSON (nextRequest w) req]
     ∧ outcome r = Normal (AjaxRequest (nextRequest w))
     ∧ this (world r) = this w
     ∧ ajax (world r) = <[nextRequest w := cl]> (ajax w))
  ∨ (request params = None
     ∧ outcome r = Normal NoopCancel
     ∧ ajax (world r) = ajax w
     ∧ _pendingCallback (this (world r)) = None
     ∧ _pendingRequest (this (world r)) = None
     ∧ ((∃ index res,
           events r = [EvLoadGeoJSON params;
                       EvDataCallback (cl_callback cl) None (Some res)]
           ∧ abandoned res = false
           ∧ _vectorTilePlugin (this (world r)) = Some index
           ∧ loaded (this (world r)) = Some ∅)
        ∨ (same_index w (world r)
           ∧ ∃ err', events r = [EvLoadGeoJSON params;
                                 EvDataCallback (cl_callback cl) err' None]))).
Proof.
  unfold loadGeoJSON. run.
  destruct (request params) as [req|]; cbn.
  { left. eexists. by repeat split. }
  right.
  set (bad := Some (InvalidGeoJSON (source params))).
  assert (Hbad : ∀ w0 : World,
    let r := loadData_response cl bad JUndefined w0 in
    ∃ err', events r = [EvDataCallback (cl_callback cl) err' None]
            ∧ outcome r = Normal tt ∧ same_index w0 (world r)
            ∧ ajax (world r) = ajax w0
            ∧ _pendingCallback (this (world r)) = None
            ∧ _pendingRequest (this (world r)) = None).
  { intros w0 r.
    destruct (loadData_response_cases cl bad JUndefined w0)
      as (Hc & Hr & Ha & _ & [(? & ? & _ & _ & _ & ? & _)|[Hs [(? & _ & Ho)|(err' & ? & ? & _)]]]);
      [done| |by exists err'].
    unfold loadData_response in Ho. by run. }
  destruct (data params) as [text|].
  2:{ specialize (Hbad w). destruct Hbad as (err' & Hbad). name_result Hbad.
      destruct Hbad as (-> & -> & ? & ? & ? & ?). cbn.
      repeat split; try done. right. split; [done|]. by exists err'. }
  destruct (JSON_parse text) as [v|]; cbn.
  2:{ specialize (Hbad w). destruct Hbad as (err' & Hbad). name_result Hbad.
      destruct Hbad as (-> & -> & ? & ? & ? & ?). cbn.
      repeat split; try done. right. split; [done|]. by exists err'. }
  pose proof (loadData_response_cases cl None v w) as Hv. name_result Hv.
  destruct Hv as (Hc & Hr & Ha & _ & [(index & res & -> & ? & -> & _ & ? & ?)
                                    |[Hs [(e & -> & ->)|(err' & -> & -> & _)]]]); cbn.
  - repeat split; try done. left. by exists index, res.
  - specialize (Hbad w'). destruct Hbad as (err' & Hbad). name_result Hbad.
    destruct Hbad as (-> & -> & [? ?] & ? & ? & ?). cbn.
    repeat split; try done; try congruence.
    right. split; [|by exists err'].
    destruct Hs. split; congruence.
  - repeat split; try done. right. split; [done|]. by exists err'.
Qed.

(** [loadData], from any world: it never throws; it begins with the
    cancellation and the abandonment of what was pending and only then calls
    [loadGeoJSON]; a remote load leaves index and loaded tiles alone and
    registers the request; an inline load completes at once. *)
Lemma loadData_cases params callback w :
  let r := loadData params callback w in
  outcome r = Normal tt
  ∧ ∃ rest,
      events r = cancel_previous w ++ abandon_previous w ++ EvLoadGeoJSON params :: rest
      ∧ ((∃ req, request params = Some req
            ∧ rest = [EvGetJSON (nextRequest w) req]
            ∧ same_index w (world r)
            ∧ _pendingCallback (this (world r)) = Some callback
            ∧ _pendingRequest (this (world r)) = Some (AjaxRequest (nextRequest w))
            ∧ ajax (world r)
              = <[nextRequest w := closure_of params callback]> (ajax_after_cancel w))
         ∨ (request params = None
            ∧ _pendingCallback (this (world r)) = None
            ∧ _pendingRequest (this (world r)) = Some NoopCancel
            ∧ ajax (world r) = ajax_after_cancel w
            ∧ ((∃ index res,
                  rest = [EvDataCallback callback None (Some res)]
                  ∧ abandoned res = false
                  ∧ _vectorTilePlugin (this (world r)) = Some index
                  ∧ loaded (this (world r)) = Some ∅)
               ∨ (same_index w (world r)
                  ∧ ∃ err', rest = [EvDataCallback callback err' None])))).
Proof.
  unfold loadData, cancel_previous, abandon_previous, ajax_after_cancel, same_index.
  fold (closure_of params callback). run.
  destruct w as [[pcb preq idx ld] aj nx].
  destruct preq as [[id|]|], pcb as [p|]; cbn;
    (match goal with
     | |- context [loadGeoJSON ?p ?c ?w] => pose proof (loadGeoJSON_cases p c w) as Hg
     end; name_result Hg; unfold same_index in Hg; cbn in Hg;
     destruct Hg as [(req & Hreq & -> & -> & -> & ->)
                    |(Hreq & -> & -> & -> & _ & [(index & res & -> & ? & ? & ?)
                                                |([? ?] & err' & ->)])];
     cbn; (split; [done|]); eexists; (split; [done|])).
  all: try (left; exists req; by repeat split).
  all: right; repeat split; try done.
  all: try (left; by exists index, res).
  all: right; split; [done|]; by exists err'.
Qed.

Lemma latest_callback_snoc pre op :
  latest_callback (pre ++ [op]) = latest_after (latest_callback pre) op.
Proof.
  induction pre as [|a pre IH]; cbn.
  - by destruct op.
  - rewrite IH. by destruct op.
Qed.

Lemma exec_snoc pre op w : exec (pre ++ [op]) w = world (step op (exec pre w)).
Proof. revert w. induction pre as [|a pre IH]; intros w; cbn; [done|apply IH]. Qed.

Lemma nothing_in_flight_after_cancel w latest id :
  in_flight_is_latest w latest → ajax_after_cancel w !! id = None.
Proof.
  intros [Hinv _]. unfold ajax_after_cancel.
  destruct (_pendingRequest (this w)) as [[id0|]|] eqn:Hreq.
  - destruct (decide (id = id0)) as [->|Hne]; [apply lookup_delete_eq|].
    rewrite lookup_delete_ne by done.
    destruct (ajax w !! id) as [cl|] eqn:Hcl; [|done].
    destruct (Hinv _ _ Hcl) as [Hp _]. congruence.
  - destruct (ajax w !! id) as [cl|] eqn:Hcl; [|done].
    destruct (Hinv _ _ Hcl) as [Hp _]. congruence.
  - destruct (ajax w !! id) as [cl|] eqn:Hcl; [|done].
    destruct (Hinv _ _ Hcl) as [Hp _]. congruence.
Qed.

(** The tile operations and [removeSource] never throw; they leave the
    pending request, the pending callback and the requests in flight alone,
    and the only data callback they can invoke is told, without an error,
    that it has been abandoned. *)
Lemma other_ops_pending op w :
  (∀ params callback, op ≠ OpLoadData params callback) →
  (∀ id err data, op ≠ OpResponse id err data) →
  same_pending w (world (step op w))
  ∧ outcome (step op w) = Normal tt
  ∧ ∀ cb err res, EvDataCallback cb err res ∈ events (step op w) →
      err = None ∧ is_abandoned res = true.
Proof.
  intros Hl Hr. unfold same_pending.
  destruct op as [p c|i e d|p c|p c|u c|c]; cbn [step];
    [by destruct (Hl p c)|by destruct (Hr i e d)|..].
  - unfold super_loadTile. run. rewrite loadTile_result. cbn.
    do 2 (split; [done|]). intros cb err res Hin; no_fresh_result.
  - unfold reloadTile, super_reloadTile, super_loadTile. run.
    destruct w as [[pcb preq idx ld] aj nx]; cbn.
    destruct (option_bind _ _ _ ld) eqn:Hld; cbn;
      rewrite ?Hld, !loadTile_result; cbn;
      (do 2 (split; [done|])); intros cb err res Hin; no_fresh_result.
  - unfold super_removeTile. run. do 2 (split; [done|]).
    intros cb err res Hin; no_fresh_result.
  - unfold removeSource. run.
    destruct (_pendingCallback (this w)) eqn:Hp; cbn; (do 2 (split; [done|]));
      intros cb err res Hin; no_fresh_result.
Qed.

Lemma response_in_flight id err data w latest :
  in_flight_is_latest w latest →
  in_flight_is_latest (world (response id err data w)) latest
  ∧ ∀ cb e res, EvDataCallback cb e res ∈ events (response id err data w) →
      latest = Some cb.
Proof.
  intros [Hinv Hpending]. unfold response.
  destruct (ajax w !! id) as [cl|] eqn:Hcl.
  2:{ split; [done|]. intros cb e res Hin. cbn in Hin. by decompose_list_elem_of. }
  destruct (Hinv _ _ Hcl) as [Hreq ->]. run.
  match goal with
  | |- context [loadData_response cl err data ?w1] =>
      pose proof (loadData_response_cases cl err data w1) as Hc
  end.
  name_result Hc. cbn in Hc.
  destruct Hc as (Hp & Hr & Ha & _ & Hev). split; [split|].
  - intros id' cl' Hl. cbn in Hl. rewrite Ha in Hl.
    destruct (decide (id' = id)) as [->|Hne]; [by rewrite lookup_delete_eq in Hl|].
    rewrite lookup_delete_ne in Hl by done.
    destruct (Hinv _ _ Hl) as [Hreq' _]. congruence.
  - intros pending Hpe. cbn in Hpe. congruence.
  - intros cb e res Hin. cbn in Hin.
    destruct Hev as [(? & ? & -> & _)|[_ [(? & -> & _)|(? & -> & _)]]];
      decompose_list_elem_of; by simplify_eq.
Qed.

(** One step of a run keeps the requests in flight with the most recent
    [loadData] call, and hands a result that is not an abandonment to that
    call's callback only. *)
Lemma step_in_flight op w latest :
  in_flight_is_latest w latest →
  in_flight_is_latest (world (step op w)) (latest_after latest op)
  ∧ ∀ cb err res, EvDataCallback cb err res ∈ events (step op w) →
      is_abandoned res = false → latest_after latest op = Some cb.
Proof.
  intros Hinv.
  destruct op as [params callback|id e d|p c|p c|u c|c].
  - cbn [step latest_after].
    destruct (loadData_cases params callback w) as (_ & rest & Hev & Hcases).
    split; [split|].
    + intros id cl Hl.
      destruct Hcases as [(req & _ & _ & _ & _ & Hreq & Ha)|(_ & _ & _ & Ha & _)];
        rewrite Ha in Hl.
      * destruct (decide (id = nextRequest w)) as [->|Hne].
        -- rewrite lookup_insert_eq in Hl. by simplify_eq.
        -- rewrite lookup_insert_ne in Hl by done.
           by rewrite (nothing_in_flight_after_cancel _ _ _ Hinv) in Hl.
      * by rewrite (nothing_in_flight_after_cancel _ _ _ Hinv) in Hl.
    + intros pending Hp.
      destruct Hcases as [(_ & _ & _ & _ & Hp' & _)|(_ & Hp' & _)]; congruence.
    + intros cb err res Hin Hfresh. rewrite Hev in Hin.
      unfold cancel_previous, abandon_previous in Hin.
      destruct (_pendingRequest (this w)), (_pendingCallback (this w));
        destruct Hcases as [(? & _ & -> & _)
                           |(_ & _ & _ & _ & [(? & ? & -> & _)|(_ & ? & ->)])];
        decompose_list_elem_of; by simplify_eq.
  - cbn [step latest_after].
    destruct (response_in_flight id e d w latest Hinv) as [? Hev].
    split; [done|]. intros cb err res Hin _. by eapply Hev.
  - destruct (other_ops_pending (OpLoadTile p c) w) as ((Hc & Hr & Ha) & _ & Hev); [done..|].
    cbn [latest_after]. destruct Hinv as [Hinv Hpending]. split; [split|].
    + intros id cl Hl. rewrite Ha, Hr in *. by apply Hinv.
    + intros pending Hp. rewrite Hc in Hp. by apply Hpending.
    + intros cb err res Hin Hfresh. apply Hev in Hin as [_ Hin]. congruence.
  - destruct (other_ops_pending (OpReloadTile p c) w) as ((Hc & Hr & Ha) & _ & Hev); [done..|].
    cbn [latest_after]. destruct Hinv as [Hinv Hpending]. split; [split|].
    + intros id cl Hl. rewrite Ha, Hr in *. by apply Hinv.
    + intros pending Hp. rewrite Hc in Hp. by apply Hpending.
    + intros cb err res Hin Hfresh. apply Hev in Hin as [_ Hin]. congruence.
  - destruct (other_ops_pending (OpRemoveTile u c) w) as ((Hc & Hr & Ha) & _ & Hev); [done..|].
    cbn [latest_after]. destruct Hinv as [Hinv Hpending]. split; [split|].
    + intros id cl Hl. rewrite Ha, Hr in *. by apply Hinv.
    + intros pending Hp. rewrite Hc in Hp. by apply Hpending.
    + intros cb err res Hin Hfresh. apply Hev in Hin as [_ Hin]. congruence.
  - destruct (other_ops_pending (OpRemoveSource c) w) as ((Hc & Hr & Ha) & _ & Hev); [done..|].
    cbn [latest_after]. destruct Hinv as [Hinv Hpending]. split; [split|].
    + intros id cl Hl. rewrite Ha, Hr in *. by apply Hinv.
    + intros pending Hp. rewrite Hc in Hp. by apply Hpending.
    + intros cb err res Hin Hfresh. apply Hev in Hin as [_ Hin]. congruence.
Qed.

Lemma exec_in_flight pre :
  in_flight_is_latest (exec pre new_world) (latest_callback pre).
Proof.
  induction pre as [|op pre IH] using rev_ind.
  - split; [|done]. intros id cl Hl. cbn in Hl. by rewrite lookup_empty in Hl.
  - rewrite exec_snoc, latest_callback_snoc. by apply step_in_flight.
Qed.

Lemma pending_matches_in_flight w :
  pending_matches w → in_flight_is_latest w (_pendingCallback (this w)).
Proof.
  intros [Hm _]. split; [|done]. intros id cl Hl. by destruct (Hm _ _ Hl).
Qed.

Lemma other_ops_keep_pending_matches op w :
  (∀ params callback, op ≠ OpLoadData params callback) →
  (∀ id err data, op ≠ OpResponse id err data) →
  pending_matches w → pending_matches (world (step op w)).
Proof.
  intros Hl Hr [Hm Hp].
  destruct (other_ops_pending op w Hl Hr) as ((Hc & Hq & Ha) & _). split.
  - intros id cl Hi. rewrite Ha in Hi. rewrite Hc, Hq. by apply Hm.
  - intros pending Hpe. rewrite Hc in Hpe. rewrite Ha. by apply (Hp pending).
Qed.

Lemma step_pending_matches op w :
  pending_matches w → pending_matches (world (step op w)).
Proof.
  intros Hinv. pose proof (pending_matches_in_flight _ Hinv) as Hfl.
  destruct Hinv as [Hm Hp].
  destruct op as [params callback|id err data|p c|p c|u c|c].
  - cbn [step].
    destruct (loadData_cases params callback w) as (_ & rest & _ & Hcases).
    destruct Hcases as [(req & _ & _ & _ & Hcb & Hreq & Ha)|(_ & Hcb & Hreq & Ha & _)].
    + split.
      * intros id cl Hl. rewrite Ha in Hl.
        destruct (decide (id = nextRequest w)) as [->|Hne].
        -- rewrite lookup_insert_eq in Hl. by simplify_eq.
        -- rewrite lookup_insert_ne in Hl by done.
           by rewrite (nothing_in_flight_after_cancel _ _ _ Hfl) in Hl.
      * intros pending _. exists (nextRequest w), (closure_of params callback).
        by rewrite Ha, lookup_insert_eq.
    + split.
      * intros id cl Hl. rewrite Ha in Hl.
        by rewrite (nothing_in_flight_after_cancel _ _ _ Hfl) in Hl.
      * intros pending Hpe. congruence.
  - cbn [step]. unfold response.
    destruct (ajax w !! id) as [cl|] eqn:Hcl; [|done].
    destruct (Hm _ _ Hcl) as [Hreq Hcb]. run.
    match goal with
    | |- context [loadData_response cl err data ?w1] =>
        pose proof (loadData_response_cases cl err data w1) as Hc
    end.
    name_result Hc. cbn in Hc. destruct Hc as (Hp' & Hr' & Ha & _). split.
    + intros id' cl' Hl. cbn in Hl. rewrite Ha in Hl.
      destruct (decide (id' = id)) as [->|Hne]; [by rewrite lookup_delete_eq in Hl|].
      rewrite lookup_delete_ne in Hl by done.
      destruct (Hm _ _ Hl) as [Hreq' _]. congruence.
    + intros pending Hpe. cbn in Hpe. congruence.
  - by apply (other_ops_keep_pending_matches (OpLoadTile p c)).
  - by apply (other_ops_keep_pending_matches (OpReloadTile p c)).
  - by apply (other_ops_keep_pending_matches (OpRemoveTile u c)).
  - by apply (other_ops_keep_pending_matches (OpRemoveSource c)).
Qed.

Lemma exec_pending_matches pre : pending_matches (exec pre new_world).
Proof.
  induction pre as [|op pre IH] using rev_ind.
  - split; [|done]. intros id cl Hl. cbn in Hl. by rewrite lookup_empty in Hl.
  - rewrite exec_snoc. by apply step_pending_matches.
Qed.

Lemma exec_app pre ops w : exec (pre ++ ops) w = exec ops (exec pre w).
Proof. revert w. induction pre as [|a pre IH]; intros w; cbn; [done|apply IH]. Qed.

(** One run of the callback of [loadData], case by case. *)
Lemma loadData_response_run cl err data w :
  let r := loadData_response cl err data w in
  (∃ data' index res,
      err = None ∧ falsy data = false ∧ typeof_object data = true
      ∧ rewind data = inr data'
      ∧ geojsonvt data' (geojsonVtOptions (cl_params cl)) = inr index
      ∧ abandoned res = false
      ∧ r = ([EvDataCallback (cl_callback cl) None (Some res)], installed index w,
             Normal tt))
  ∨ (∃ e, err = None ∧ falsy data = false ∧ typeof_object data = true
          ∧ rewind data = inl e ∧ r = ([], cleared w, Thrown e))
  ∨ (∃ err', r = ([EvDataCallback (cl_callback cl) err' None], cleared w, Normal tt)
       ∧ (((is_Some err ∨ falsy data = true) ∧ err' = err)
          ∨ (err = None ∧ falsy data = false ∧ typeof_object data = false
             ∧ err' = Some (InvalidGeoJSON (source (cl_params cl))))
          ∨ (∃ data' e, err = None ∧ falsy data = false ∧ typeof_object data = true
               ∧ rewind data = inr data'
               ∧ geojsonvt data' (geojsonVtOptions (cl_params cl)) = inl e
               ∧ err' = Some e))).
Proof.
  unfold loadData_response, cleared, installed. run.
  destruct err as [e|]; cbn.
  { right. right. eexists. split; [done|]. left. split; [by left|done]. }
  destruct (falsy data) eqn:Hf; cbn.
  { right. right. eexists. split; [done|]. left. split; [by right|done]. }
  destruct (typeof_object data) eqn:Ht; cbn.
  2:{ right. right. eexists. split; [done|]. right. left. by repeat split. }
  destruct (rewind data) as [e|data'] eqn:Hr; cbn.
  { right. left. exists e. by repeat split. }
  destruct (geojsonvt data' _) as [e|index] eqn:Hvt; cbn.
  { right. right. eexists. split; [done|]. right. right. exists data', e. by repeat split. }
  left. exists data', index.
  destruct (cl_perf cl) as [req|]; [destruct (perf_finish req)|];
    eexists; by repeat split.
Qed.

(** The tile operations and [removeSource] read and write the index and the
    set of loaded tiles only. *)
Lemma tile_ops_same_index op w1 w2 :
  data_op op = false → same_index w1 w2 →
  same_index (world (step op w1)) (world (step op w2)).
Proof.
  unfold same_index. intros Hop [Hi Hl].
  destruct w1 as [[pcb1 preq1 idx1 ld1] aj1 nx1], w2 as [[pcb2 preq2 idx2 ld2] aj2 nx2].
  cbn in Hi, Hl. subst idx2 ld2.
  destruct op as [p c|i e d|p c|p c|u c|c]; [done|done|..]; cbn [step].
  - unfold super_loadTile. run. by rewrite !loadTile_result.
  - unfold reloadTile, super_reloadTile, super_loadTile. run.
    destruct (option_bind _ _ _ ld1) eqn:Hld; cbn; rewrite ?Hld, !loadTile_result; by cbn.
  - unfold super_removeTile. by run.
  - by rewrite !removeSource_world.
Qed.

Lemma exec_same_index others w1 w2 :
  Forall (λ op, data_op op = false) others → same_index w1 w2 →
  same_index (exec others w1) (exec others w2).
Proof.
  intros Hall. revert w1 w2.
  induction Hall as [|op others Hop _ IH]; intros w1 w2 Hs; cbn; [done|].
  by apply IH, tile_ops_same_index.
Qed.

(** An operation that neither starts a data load nor answers the request in
    flight leaves it in flight. *)
Lemma step_keeps_in_flight op w id cl :
  pending_matches w → ajax w !! id = Some cl → leaves_in_flight id op = true →
  ajax (world (step op w)) !! id = Some cl.
Proof.
  intros [Hm _] Hcl Hop.
  destruct op as [p c|id' e d|p c|p c|u c|c]; [done| |..].
  - cbn in Hop. apply negb_true_iff, Nat.eqb_neq in Hop. cbn [step]. unfold response.
    destruct (ajax w !! id') as [cl'|] eqn:Hcl'; [|done].
    destruct (Hm _ _ Hcl) as [Hr _], (Hm _ _ Hcl') as [Hr' _]. congruence.
  - destruct (other_ops_pending (OpLoadTile p c) w) as ((_ & _ & ->) & _); done.
  - destruct (other_ops_pending (OpReloadTile p c) w) as ((_ & _ & ->) & _); done.
  - destruct (other_ops_pending (OpRemoveTile u c) w) as ((_ & _ & ->) & _); done.
  - destruct (other_ops_pending (OpRemoveSource c) w) as ((_ & _ & ->) & _); done.
Qed.

Lemma exec_keeps_in_flight others w id cl :
  Forall (λ op, leaves_in_flight id op = true) others →
  pending_matches w → ajax w !! id = Some cl →
  pending_matches (exec others w) ∧ ajax (exec others w) !! id = Some cl.
Proof.
  intros Hall. revert w.
  induction Hall as [|op others Hop _ IH]; intros w Hm Hcl; cbn; [done|].
  apply IH; [by apply step_pending_matches|by apply step_keeps_in_flight].
Qed.

(** ** The claims about the worker source *)

(** C1. Freshest write wins.  From any state, [loadData] first cancels the
    pending request, then tells the pending callback that it has been
    abandoned, and only then calls [loadGeoJSON] for the new data.  A
    [loadData] call that goes to the network records its callback and its
    request: as long as no response to the request has arrived and no other
    [loadData] call was made, the request is in flight, and the next
    [loadData] call cancels that very request, then hands that very callback
    [{abandoned: true}], and only then fetches the new data; what is in
    flight afterwards belongs to the new call.  In every run of a worker
    source (any sequence of [loadData] calls, tile operations,
    [removeSource] and responses to the requests in flight), a request in
    flight is cancelled and its callback abandoned by the next [loadData]
    call, the pending callback is that of the most recent [loadData] call,
    and a data callback that is handed anything but an abandonment is the
    callback of the most recent [loadData] call. *)
Theorem loadData_freshest_write_wins :
  (∀ params callback w, ∃ rest,
      events (loadData params callback w)
      = cancel_previous w ++ abandon_previous w ++ EvLoadGeoJSON params :: rest)
  ∧ (∀ pre params req callback others params' callback',
       request params = Some req →
       let id := nextRequest (exec pre new_world) in
       Forall (λ op, leaves_in_flight id op = true) others →
       let w := exec (pre ++ OpLoadData params callback :: others) new_world in
       _pendingCallback (this w) = Some callback
       ∧ _pendingRequest (this w) = Some (AjaxRequest id)
       ∧ ajax w !! id = Some (closure_of params callback)
       ∧ (∃ rest,
            events (loadData params' callback' w)
            = EvCancel (AjaxRequest id)
              :: EvDataCallback callback None (Some result_abandoned)
              :: EvLoadGeoJSON params' :: rest)
       ∧ ∀ id' cl, ajax (world (loadData params' callback' w)) !! id' = Some cl →
           cl = closure_of params' callback')
  ∧ (∀ pre id cl params callback,
       ajax (exec pre new_world) !! id = Some cl →
       ∃ rest,
         events (loadData params callback (exec pre new_world))
         = EvCancel (AjaxRequest id)
           :: EvDataCallback (cl_callback cl) None (Some result_abandoned)
           :: EvLoadGeoJSON params :: rest)
  ∧ (∀ pre pending,
       _pendingCallback (this (exec pre new_world)) = Some pending →
       latest_callback pre = Some pending)
  ∧ (∀ pre op cb err res,
       EvDataCallback cb err res ∈ events (step op (exec pre new_world)) →
       is_abandoned res = false →
       latest_callback (pre ++ [op]) = Some cb).
Proof.
  assert (Hnext : ∀ w id cl params callback,
    pending_matches w → ajax w !! id = Some cl →
    ∃ rest,
      events (loadData params callback w)
      = EvCancel (AjaxRequest id)
        :: EvDataCallback (cl_callback cl) None (Some result_abandoned)
        :: EvLoadGeoJSON params :: rest).
  { intros w id cl params callback [Hm _] Hcl.
    destruct (loadData_cases params callback w) as (_ & rest & Hev & _).
    destruct (Hm _ _ Hcl) as [Hr Hp]. exists rest.
    rewrite Hev. unfold cancel_previous, abandon_previous. by rewrite Hr, Hp. }
  split; [|split; [|split; [|split]]].
  - intros params callback w.
    destruct (loadData_cases params callback w) as (_ & rest & Hev & _).
    by exists rest.
  - cbv zeta. intros pre params req callback others params' callback' Hreq Hquiet.
    rewrite exec_app. cbn [exec step].
    pose proof (exec_pending_matches pre) as Hpre.
    set (w0 := exec pre new_world) in *.
    assert (Hfl : ajax (world (loadData params callback w0)) !! nextRequest w0
                  = Some (closure_of params callback)).
    { destruct (loadData_cases params callback w0) as (_ & rest & _ & Hcases).
      destruct Hcases as [(? & _ & _ & _ & _ & _ & ->)|(? & _)]; [|congruence].
      apply lookup_insert_eq. }
    destruct (exec_keeps_in_flight others _ _ _ Hquiet
                (step_pending_matches (OpLoadData params callback) _ Hpre) Hfl)
      as [Hm Hcl].
    set (w := exec others (world (loadData params callback w0))) in *.
    destruct (proj1 Hm _ _ Hcl) as [Hr Hp].
    split; [done|]. split; [done|]. split; [done|]. split.
    + apply (Hnext w _ (closure_of params callback) params' callback' Hm Hcl).
    + intros id' cl Hl.
      pose proof (pending_matches_in_flight _ Hm) as Hlatest.
      destruct (loadData_cases params' callback' w) as (_ & rest & _ & Hcases).
      destruct Hcases as [(? & _ & _ & _ & _ & _ & Ha)|(_ & _ & _ & Ha & _)];
        rewrite Ha in Hl.
      * destruct (decide (id' = nextRequest w)) as [->|Hne].
        -- rewrite lookup_insert_eq in Hl. by simplify_eq.
        -- rewrite lookup_insert_ne in Hl by done.
           by rewrite (nothing_in_flight_after_cancel _ _ _ Hlatest) in Hl.
      * by rewrite (nothing_in_flight_after_cancel _ _ _ Hlatest) in Hl.
  - intros pre id cl params callback Hcl.
    by apply Hnext; [apply exec_pending_matches|].
  - intros pre; apply (exec_in_flight pre).
  - intros pre op cb err res Hin Hfresh. rewrite latest_callback_snoc.
    by eapply (step_in_flight op _ _ (exec_in_flight pre)).
Qed.

(** C2, as amended.  [removeSource] releases nothing: the index and the set
    of loaded tiles are what they were.  It tells the pending data callback,
    if there is one, that it has been abandoned, and acknowledges after
    that. *)
Theorem removeSource_abandons_then_acknowledges callback w :
  let r := removeSource callback w in
  same_index w (world r)
  ∧ events r = abandon_previous w ++ [EvAck callback]
  ∧ outcome r = Normal tt.
Proof.
  cbv zeta. rewrite removeSource_world. split; [done|].
  unfold removeSource, abandon_previous. run.
  by destruct (_pendingCallback (this w)).
Qed.

(** C3, as amended.  The tile loader never hands its callback an error.
    Without an index, and for a coordinate the index has no tile for, the
    callback gets neither error nor data; otherwise it gets the tile's
    features wrapped, together with the bytes of their encoding. *)
Theorem loadTile_never_fails {A} self params
    (callback : option Error → option LoadVectorTileResult → A) :
  let canonical := tileID params in
  loadTile self params callback = callback None (encoded_tile self params)
  ∧ (_vectorTilePlugin self = None → encoded_tile self params = None)
  ∧ (∀ plugin,
       _vectorTilePlugin self = Some plugin →
       getTile plugin (z canonical) (x canonical) (y canonical) = None →
       encoded_tile self params = None)
  ∧ (∀ plugin tile,
       _vectorTilePlugin self = Some plugin →
       getTile plugin (z canonical) (x canonical) (y canonical) = Some tile →
       encoded_tile self params
       = Some {| vectorTile := {| _features := features tile |};
                 rawData := viewed (vtpbf {| _features := features tile |}) |}).
Proof.
  cbv zeta. split; [apply loadTile_result|]. unfold encoded_tile.
  split; [by intros ->|]. split.
  - intros plugin -> Htile. cbn. by rewrite Htile.
  - intros plugin tile -> Htile. cbn. by rewrite Htile.
Qed.

(** C4.  [reloadTile] hands its callback what the tile loader yields for the
    coordinate, whether or not the tile was loaded before, and never touches
    the index.  For a tile in the set of loaded tiles it is the inherited
    [reloadTile] and the worker source is left as it was; for any other tile
    it is the inherited [loadTile]. *)
Theorem reloadTile_falls_back_to_loadTile params callback w :
  let r := reloadTile params callback w in
  events r = [EvTileCallback callback None (encoded_tile (this w) params)]
  ∧ _vectorTilePlugin (this (world r)) = _vectorTilePlugin (this w)
  ∧ match loaded (this w) ≫= (.!! uid params) with
    | Some _ => r = super_reloadTile params callback w ∧ world r = w
    | None => r = super_loadTile params callback w
    end.
Proof.
  unfold reloadTile, super_reloadTile, super_loadTile. run.
  destruct w as [[pcb preq idx ld] aj nx]; cbn.
  destruct (option_bind _ _ _ ld) eqn:Hld; cbn;
    rewrite ?Hld, !loadTile_result; by cbn.
Qed.

(** C9.  A failed data load is atomic: the index and the set of loaded tiles
    are replaced on the success path only.
    - Whenever a step of the worker source hands a data callback an error,
      invokes it without a result, or lets the exception of a library
      through, the index and the set of loaded tiles are what they were
      before the step.
    - The [loadData] call that sends a request changes neither.
    - A [loadData] call or a response either leaves both as they were or
      hands a callback a result that is no abandonment, the new index being
      installed and the set of loaded tiles empty.
    - One run of the callback of [loadData] on a fetch error, on no data, on
      data that is no object, on data [rewind] or [geojsonvt] throws on,
      leaves both as they were.
    - A load from the network as a whole: from the [loadData] call, through
      any tile operations and [removeSource], to a response that fails, the
      index and the set of loaded tiles are what they are without the call
      (what they were before the call, when nothing happened in between). *)
Theorem loadData_failure_is_atomic :
  (∀ op w, load_failed (step op w) → same_index w (world (step op w)))
  ∧ (∀ params req callback w,
       request params = Some req →
       same_index w (world (loadData params callback w)))
  ∧ (∀ op w,
       data_op op = true →
       same_index w (world (step op w))
       ∨ ∃ cb res index,
           EvDataCallback cb None (Some res) ∈ events (step op w)
           ∧ abandoned res = false
           ∧ _vectorTilePlugin (this (world (step op w))) = Some index
           ∧ loaded (this (world (step op w))) = Some ∅)
  ∧ (∀ cl err data w,
       is_Some err ∨ falsy data = true ∨ typeof_object data = false
       ∨ (∃ e, rewind data = inl e)
       ∨ (∃ data' e, rewind data = inr data'
                     ∧ geojsonvt data' (geojsonVtOptions (cl_params cl)) = inl e) →
       same_index w (world (loadData_response cl err data w)))
  ∧ (∀ params req callback others id err data w,
       request params = Some req →
       Forall (λ op, data_op op = false) others →
       let w1 := exec (OpLoadData params callback :: others) w in
       load_failed (response id err data w1) →
       same_index (exec others w) (world (response id err data w1))).
Proof.
  assert (Hstep : ∀ op w, load_failed (step op w) → same_index w (world (step op w))).
  { intros op w Hfail.
    assert (Hother : (∀ params callback, op ≠ OpLoadData params callback) →
                     (∀ id err data, op ≠ OpResponse id err data) →
                     same_index w (world (step op w))).
    { intros Hl Hr. destruct (other_ops_pending op w Hl Hr) as (_ & Ho & Hev).
      destruct Hfail as [(cb & e & res & Hin)|[(cb & err & Hin)|[e He]]]; [| |congruence].
      - by destruct (Hev _ _ _ Hin).
      - by destruct (Hev _ _ _ Hin). }
    destruct op as [params callback|id e d|p c|p c|u c|c]; [| |by apply Hother..];
      clear Hother.
    - cbn [step] in *.
      destruct (loadData_cases params callback w) as (Ho & rest & Hev & Hcases).
      destruct Hcases as [(? & _ & _ & ? & _)
                         |(_ & _ & _ & _ & [(? & ? & -> & ? & _)|(? & _)])]; [done| |done].
      destruct Hfail as [(cb & e & res & Hin)|[(cb & err & Hin)|[e He]]]; [| |congruence];
        rewrite Hev in Hin; unfold cancel_previous, abandon_previous in Hin;
        destruct (_pendingRequest (this w)), (_pendingCallback (this w));
        decompose_list_elem_of; by simplify_eq.
    - cbn [step] in *. unfold response in *.
      destruct (ajax w !! id) as [cl|] eqn:Hcl; [|done]. revert Hfail. run.
      match goal with
      | |- context [loadData_response cl e d ?w1] =>
          pose proof (loadData_response_cases cl e d w1) as Hc
      end.
      name_result Hc. unfold same_index in *. cbn in Hc.
      destruct Hc as (_ & _ & _ & _ & [(? & ? & -> & _ & -> & _)|[? _]]); [|done].
      intros [(cb & e' & res & Hin)|[(cb & err & Hin)|[e' He]]]; [| |done];
        cbn in Hin; decompose_list_elem_of; by simplify_eq. }
  assert (Hcall : ∀ params req callback w,
    request params = Some req → same_index w (world (loadData params callback w))).
  { intros params req callback w Hreq.
    destruct (loadData_cases params callback w) as (_ & rest & _ & Hcases).
    destruct Hcases as [(? & _ & _ & ? & _)|(? & _)]; [done|congruence]. }
  split; [done|]. split; [done|]. split; [|split].
  - intros op w Hop.
    destruct op as [params callback|id e d|p c|p c|u c|c]; try done; cbn [step].
    + destruct (loadData_cases params callback w) as (_ & rest & Hev & Hcases).
      destruct Hcases as [(? & _ & _ & ? & _)
                         |(_ & _ & _ & _ & [(index & res & -> & ? & ? & ?)|(? & _)])];
        [by left| |by left].
      right. exists callback, res, index. split; [|done].
      rewrite Hev, !elem_of_app. right. right.
      apply list_elem_of_further, list_elem_of_here.
    + unfold response. destruct (ajax w !! id) as [cl|] eqn:Hcl; [|by left]. run.
      match goal with
      | |- context [loadData_response cl e d ?w1] =>
          pose proof (loadData_response_cases cl e d w1) as Hc
      end.
      name_result Hc. unfold same_index in *. cbn in Hc. cbn.
      destruct Hc as (_ & _ & _ & _ & [(index & res & -> & ? & _ & _ & ? & ?)|[? _]]);
        [|by left].
      right. exists (cl_callback cl), res, index. split; [apply list_elem_of_here|done].
  - intros cl err data w Hcause.
    destruct (loadData_response_run cl err data w)
      as [(data' & index & res & -> & Hf & Ht & Hr & Hvt & _)
         |[(e & _ & _ & _ & _ & ->)|(err' & -> & _)]]; [|done..].
    destruct Hcause as [[? ?]|[?|[?|[[e He]|(d' & e & Hr' & Hvt')]]]]; congruence.
  - cbv zeta. intros params req callback others id err data w Hreq Hothers Hfail.
    cbn [exec step] in *.
    pose proof (Hcall params req callback w Hreq) as H0.
    pose proof (exec_same_index others _ _ Hothers H0) as H1.
    pose proof (Hstep (OpResponse id err data) _ Hfail) as H2. cbn [step] in H2.
    unfold same_index in *. destruct H1 as [<- <-]. done.
Qed.

End Facts.

(** ** The claims on concrete runs *)

(** One polygon covering tile (0,0,0): that tile has one feature, tile
    (1,1,1) has no data. *)
Example tile_of_covering_polygon :
  @encoded_tile Toy.libs (this Toy.loaded_world) Toy.tile000
  = Some {| vectorTile := {| _features := [Toy.square] |}; rawData := ["1"%byte] |}.
Proof. reflexivity. Qed.

Example tile_without_features :
  @encoded_tile Toy.libs (this Toy.loaded_world) Toy.tile111 = None.
Proof. reflexivity. Qed.

(** A remote load that is superseded before its response arrives: its
    request is cancelled, its callback abandoned, and the late response
    finds no request to answer. *)
Example superseded_load :
  @trace Toy.libs
    [OpLoadData (Toy.remote "a") 1; OpLoadData (Toy.remote "b") 2;
     OpResponse 0 None (JObject []); OpResponse 1 None (JObject [])] new_world
  = [EvLoadGeoJSON (Toy.remote "a");
     EvGetJSON 0 {| url := "a"; collectResourceTiming := true |};
     EvCancel (AjaxRequest 0);
     EvDataCallback 1 None (Some result_abandoned);
     EvLoadGeoJSON (Toy.remote "b");
     EvGetJSON 1 {| url := "b"; collectResourceTiming := true |};
     EvDataCallback 2 None
       (Some {| resourceTiming := Some ("s"%string, [1; 2]); abandoned := false |})].
Proof. reflexivity. Qed.

(** The index outlives [removeSource]: a tile requested afterwards is still
    encoded from it. *)
Example index_outlives_removeSource :
  @trace Toy.libs [OpRemoveSource 9; OpLoadTile Toy.tile000 3] Toy.loaded_world
  = [EvAck 9;
     EvTileCallback 3 None
       (Some {| vectorTile := {| _features := [Toy.square] |}; rawData := ["1"%byte] |})].
Proof. reflexivity. Qed.

(** A remote load superseded by an inline one, [removeSource] having been
    called in between: the request of the first call is cancelled, its
    callback abandoned, and the result goes to the second callback, the most
    recent one. *)
Lemma loadData_freshest_write_wins_witness :
  let pre := [OpLoadData (Toy.remote "a") 1; OpRemoveSource 9] in
  let op := OpLoadData (Toy.inline "{}") 2 in
  let res := Some {| resourceTiming := None; abandoned := false |} in
  (∃ rest,
     events (@step Toy.libs op (@exec Toy.libs pre new_world))
     = EvCancel (AjaxRequest 0)
       :: EvDataCallback 1 None (Some result_abandoned)
       :: EvLoadGeoJSON (Toy.inline "{}") :: rest)
  ∧ EvDataCallback 2 None res ∈ events (@step Toy.libs op (@exec Toy.libs pre new_world))
  ∧ latest_callback (pre ++ [op]) = Some 2%nat.
Proof.
  cbv zeta.
  assert (Hin : EvDataCallback 2 None (Some {| resourceTiming := None; abandoned := false |})
                ∈ events (@step Toy.libs (OpLoadData (Toy.inline "{}") 2)
                            (@exec Toy.libs [OpLoadData (Toy.remote "a") 1; OpRemoveSource 9]
                               new_world))).
  { vm_compute. do 3 apply list_elem_of_further. apply list_elem_of_here. }
  destruct (@loadData_freshest_write_wins Toy.libs) as (_ & Hnext & _ & _ & Hlatest).
  split; [|split; [exact Hin|exact (Hlatest _ _ _ _ _ Hin eq_refl)]].
  assert (Hquiet : Forall (λ op, leaves_in_flight 0 op = true) [OpRemoveSource 9])
    by (repeat constructor).
  exact (proj1 (proj2 (proj2 (proj2
    (Hnext [] (Toy.remote "a") _ 1%nat [OpRemoveSource 9] (Toy.inline "{}") 2%nat
       eq_refl Hquiet))))).
Defined.

(** C2, the claim as stated fails: after [removeSource] the index built from
    the inline data and the entry of tile (0,0,0) are still there. *)
Lemma removeSource_releases_nothing :
  ¬ spec_released (this (world (removeSource 9 Toy.loaded_world))).
Proof.
  intros [Hindex _]. vm_compute in Hindex. discriminate.
Qed.

(** C3, the claim as stated fails: a tile requested from a freshly
    constructed worker source, before any data was loaded, is answered
    without an error. *)
Lemma loadTile_before_loadData_is_no_error :
  ¬ @spec_not_ready Toy.libs new_source Toy.tile000.
Proof.
  intros [e He]. vm_compute in He. discriminate.
Qed.

(** Tile (0,0,0) of the loaded index: no error, the polygon and the bytes
    its encoding views. *)
Lemma loadTile_never_fails_witness :
  @loadTile Toy.libs _ (this Toy.loaded_world) Toy.tile000 (λ err data, (err, data))
  = (None, Some {| vectorTile := {| _features := [Toy.square] |};
                   rawData := ["1"%byte] |}).
Proof.
  destruct (@loadTile_never_fails Toy.libs _ (this Toy.loaded_world) Toy.tile000
              (λ err data, (err, data))) as (Hcall & _ & _ & Htile).
  rewrite Hcall, (Htile Toy.index {| features := [Toy.square] |} eq_refl eq_refl).
  reflexivity.
Defined.

(** Loading ill-formed inline data into a worker source that has an index:
    the callback gets the error, index and loaded tiles stay.  And a load
    from the network, a tile being loaded before the response comes without
    data: the callback is invoked without a result, and index and loaded
    tiles are what the tile operation alone leaves. *)
Lemma loadData_failure_is_atomic_witness :
  let op := OpLoadData (Toy.inline "1") 6 in
  let w1 := @exec Toy.libs [OpLoadData (Toy.remote "a") 7; OpLoadTile Toy.tile111 8]
              Toy.loaded_world in
  (@load_failed (@step Toy.libs op Toy.loaded_world)
   ∧ same_index Toy.loaded_world (world (@step Toy.libs op Toy.loaded_world)))
  ∧ (@load_failed (@response Toy.libs 0 None JNull w1)
     ∧ same_index (@exec Toy.libs [OpLoadTile Toy.tile111 8] Toy.loaded_world)
         (world (@response Toy.libs 0 None JNull w1))).
Proof.
  cbv zeta.
  assert (Hfail : load_failed (@step Toy.libs (OpLoadData (Toy.inline "1") 6)
                                 Toy.loaded_world)).
  { left. exists 6%nat, (InvalidGeoJSON "s"), None.
    vm_compute. apply list_elem_of_further, list_elem_of_further, list_elem_of_here. }
  assert (Hnone : load_failed
            (@response Toy.libs 0 None JNull
               (@exec Toy.libs [OpLoadData (Toy.remote "a") 7; OpLoadTile Toy.tile111 8]
                  Toy.loaded_world))).
  { right. left. exists 7%nat, None. vm_compute. apply list_elem_of_here. }
  assert (Htiles : Forall (λ op, data_op op = false) [OpLoadTile Toy.tile111 8])
    by (repeat constructor).
  destruct (@loadData_failure_is_atomic Toy.libs) as (Hstep & _ & _ & _ & Hwhole).
  split; [split; [exact Hfail|exact (Hstep _ _ Hfail)]|].
  split; [exact Hnone|].
  exact (Hwhole (Toy.remote "a") _ 7%nat [OpLoadTile Toy.tile111 8] 0%nat None JNull
           Toy.loaded_world eq_refl Htiles Hnone).
Defined.

End WorkerProofs.

Module SourceProofs.
Import Source.

Ltac run :=
  cbv [mbind mret Run_bind Run_ret bind ret throw try_catch emit events world outcome
       get_world modify_source set_tiles modify_tile get_tile actor_send actor_cancel
       forget_call tile_unloadVectorData tile_loadVectorData] in *;
  cbn [fst snd source map planet tiles calls nextCall app] in *.

Ltac name_result H :=
  cbv zeta in H;
  match type of H with
  | context [events ?r] =>
      let ev := fresh "ev" in let w' := fresh "w'" in let o := fresh "o" in
      destruct r as [[ev w'] o]; cbn [events world outcome fst snd] in H
  end.

Section Facts.
Context `{!Externals}.

Lemma outstanding_insert_load (m : gmap nat ActorCallback) call sdt :
  m !! call = None →
  size (filter is_load_call (<[call := UpdateWorkerDataCallback sdt]> m))
  = S (size (filter is_load_call m)).
Proof.
  intros Hfresh. rewrite map_filter_insert_True by done.
  apply map_size_insert_None, map_lookup_filter_None_2. by left.
Qed.

Lemma outstanding_insert_tile (m : gmap nat ActorCallback) call tile reload cb :
  m !! call = None →
  filter is_load_call (<[call := LoadTileCallback tile reload cb]> m)
  = filter is_load_call m.
Proof.
  intros Hfresh. apply map_filter_insert_not'; [by intros []|].
  intros y Hy. congruence.
Qed.

Lemma outstanding_delete_load (m : gmap nat ActorCallback) call sdt :
  m !! call = Some (UpdateWorkerDataCallback sdt) →
  S (size (filter is_load_call (delete call m))) = size (filter is_load_call m).
Proof.
  intros Hcall. rewrite map_filter_delete.
  assert (Hf : filter is_load_call m !! call = Some (UpdateWorkerDataCallback sdt))
    by by apply map_lookup_filter_Some_2.
  rewrite map_size_delete, Hf.
  destruct (size (filter is_load_call m)) eqn:Hsize; [|done].
  apply map_size_empty_inv in Hsize. rewrite Hsize in Hf. by rewrite lookup_empty in Hf.
Qed.

Lemma outstanding_delete_other (m : gmap nat ActorCallback) call c :
  m !! call = Some c → ¬ is_load_call (call, c) →
  filter is_load_call (delete call m) = filter is_load_call m.
Proof.
  intros Hcall Hc. apply map_filter_delete_not. intros y Hy. congruence.
Qed.

Lemma _updateWorkerData_run sdt w :
  let r := _updateWorkerData sdt w in
  outcome r = Normal tt
  ∧ (∃ options,
       events r = [EvFire dataloading;
                   EvSend (nextCall w) (MsgLoadData (type (source w)) options)])
  ∧ source (world r) = set_pendingLoads (_pendingLoads (source w) + 1) (source w)
  ∧ calls (world r) = <[nextCall w := UpdateWorkerDataCallback sdt]> (calls w)
  ∧ nextCall (world r) = S (nextCall w)
  ∧ tiles (world r) = tiles w ∧ planet (world r) = planet w ∧ map (world r) = map w.
Proof.
  unfold _updateWorkerData. run. cbn. repeat split; try done. by eexists.
Qed.

(** *** How the counter invariant is kept *)

Lemma invariant_same w w' :
  counter_invariant w →
  _pendingLoads (source w') = _pendingLoads (source w) →
  calls w' = calls w →
  (nextCall w ≤ nextCall w')%nat →
  counter_invariant w'.
Proof.
  intros [Hn Hfresh] Hp Hc Hnext. unfold counter_invariant, outstanding_loads.
  rewrite Hp, Hc. split; [done|].
  intros call Hcall. specialize (Hfresh call Hcall). lia.
Qed.

Lemma invariant_tile_call w w' tile reload cb :
  counter_invariant w →
  _pendingLoads (source w') = _pendingLoads (source w) →
  calls w' = <[nextCall w := LoadTileCallback tile reload cb]> (calls w) →
  nextCall w' = S (nextCall w) →
  counter_invariant w'.
Proof.
  intros [Hn Hfresh] Hp Hc Hnext. unfold counter_invariant, outstanding_loads.
  assert (calls w !! nextCall w = None) as Hnone.
  { destruct (calls w !! nextCall w) eqn:Hl; [|done].
    specialize (Hfresh (nextCall w)). rewrite Hl in Hfresh.
    specialize (Hfresh (mk_is_Some _ _ eq_refl)). lia. }
  rewrite Hp, Hc, Hnext, outstanding_insert_tile by done. split; [done|].
  intros call Hcall. destruct (decide (call = nextCall w)) as [->|Hne]; [lia|].
  rewrite lookup_insert_ne in Hcall by done. specialize (Hfresh call Hcall). lia.
Qed.

Lemma invariant_load_call w w' sdt :
  counter_invariant w →
  _pendingLoads (source w') = _pendingLoads (source w) + 1 →
  calls w' = <[nextCall w := UpdateWorkerDataCallback sdt]> (calls w) →
  nextCall w' = S (nextCall w) →
  counter_invariant w'.
Proof.
  intros [Hn Hfresh] Hp Hc Hnext. unfold counter_invariant, outstanding_loads in *.
  assert (calls w !! nextCall w = None) as Hnone.
  { destruct (calls w !! nextCall w) eqn:Hl; [|done].
    specialize (Hfresh (nextCall w)). rewrite Hl in Hfresh.
    specialize (Hfresh (mk_is_Some _ _ eq_refl)). lia. }
  rewrite Hp, Hc, Hnext, outstanding_insert_load by done. split; [lia|].
  intros call Hcall. destruct (decide (call = nextCall w)) as [->|Hne]; [lia|].
  rewrite lookup_insert_ne in Hcall by done. specialize (Hfresh call Hcall). lia.
Qed.

Lemma invariant_reply_load w w' call sdt :
  counter_invariant w →
  calls w !! call = Some (UpdateWorkerDataCallback sdt) →
  _pendingLoads (source w') = _pendingLoads (source w) - 1 →
  calls w' = delete call (calls w) →
  nextCall w' = nextCall w →
  counter_invariant w'.
Proof.
  intros [Hn Hfresh] Hcall Hp Hc Hnext. unfold counter_invariant, outstanding_loads in *.
  rewrite Hp, Hc, Hnext. pose proof (outstanding_delete_load _ _ _ Hcall). split; [lia|].
  intros call' Hcall'. apply Hfresh.
  destruct (decide (call' = call)) as [->|Hne]; [by rewrite lookup_delete_eq in Hcall'|].
  by rewrite lookup_delete_ne in Hcall'.
Qed.

Lemma invariant_reply_other w w' call c :
  counter_invariant w →
  calls w !! call = Some c → ¬ is_load_call (call, c) →
  _pendingLoads (source w') = _pendingLoads (source w) →
  calls w' = delete call (calls w) →
  nextCall w' = nextCall w →
  counter_invariant w'.
Proof.
  intros [Hn Hfresh] Hcall Hno Hp Hc Hnext. unfold counter_invariant, outstanding_loads in *.
  rewrite Hp, Hc, Hnext, (outstanding_delete_other _ _ _ Hcall Hno). split; [done|].
  intros call' Hcall'. apply Hfresh.
  destruct (decide (call' = call)) as [->|Hne]; [by rewrite lookup_delete_eq in Hcall'|].
  by rewrite lookup_delete_ne in Hcall'.
Qed.

(** The notification a data load ends with. *)
Lemma _updateWorkerData_callback_run sdt err result w :
  let r := _updateWorkerData_callback sdt err result w in
  outcome r = Normal tt
  ∧ source (world r) = set_pendingLoads (_pendingLoads (source w) - 1) (source w)
  ∧ calls (world r) = calls w ∧ nextCall (world r) = nextCall w
  ∧ tiles (world r) = tiles w
  ∧ ∃ n, events r = [EvFire n]
      ∧ match n with
        | dataloading => False
        | dataabort s =>
            s = sdt ∧ (_removed (source w) = true ∨ result_is_abandoned result = true)
        | error e =>
            err = Some e ∧ _removed (source w) = false ∧ result_is_abandoned result = false
        | data s _ =>
            s = sdt ∧ err = None
            ∧ _removed (source w) = false ∧ result_is_abandoned result = false
        end.
Proof.
  unfold _updateWorkerData_callback. run. cbn.
  destruct (_removed (source w)) eqn:Hr; cbn.
  { repeat split; try done. eexists. split; [done|]. cbn. auto. }
  destruct (result_is_abandoned result) eqn:Ha; cbn.
  { repeat split; try done. eexists. split; [done|]. cbn. auto. }
  destruct err as [e|]; cbn; repeat split; try done; eexists; (split; [done|]); by cbn.
Qed.

Lemma step_counter op w :
  counter_invariant w → counter_invariant (world (step op w)).
Proof.
  intros Hinv. destruct op as [m| |d|tile cb|tile|tile| |call err result]; cbn [step].
  - unfold onAdd, load. run.
    match goal with
    | |- context [_updateWorkerData ?s ?w1] =>
        pose proof (_updateWorkerData_run s w1) as Hu
    end.
    name_result Hu. destruct Hu as (-> & _ & Hs & Hc & Hn & _). cbn in *.
    eapply invariant_load_call; [exact Hinv|by rewrite Hs|done..].
  - unfold load.
    pose proof (_updateWorkerData_run metadata w) as Hu.
    name_result Hu. destruct Hu as (-> & _ & Hs & Hc & Hn & _). cbn in *.
    eapply invariant_load_call; [exact Hinv|by rewrite Hs|done..].
  - unfold setData. run.
    match goal with
    | |- context [_updateWorkerData ?s ?w1] =>
        pose proof (_updateWorkerData_run s w1) as Hu
    end.
    name_result Hu. destruct Hu as (-> & _ & Hs & Hc & Hn & _). cbn in *.
    eapply invariant_load_call; [exact Hinv|by rewrite Hs|done..].
  - unfold loadTile. run.
    destruct (tiles w !! tile) as [t|]; cbn; [|done].
    destruct (planet w); cbn; by eapply invariant_tile_call.
  - unfold abortTile. run.
    destruct (tiles w !! tile) as [t|]; cbn; [|done].
    destruct (request t); cbn; by eapply invariant_same.
  - unfold unloadTile. run.
    destruct (tiles w !! tile) as [t|]; cbn; [|done].
    eapply invariant_same; [done..|cbn; lia].
  - unfold onRemove. run. cbn. eapply invariant_same; [done..|cbn; lia].
  - unfold reply.
    destruct (calls w !! call) as [[sdt|tile reload cb|]|] eqn:Hcall; [| | |done].
    + run.
      match goal with
      | |- context [_updateWorkerData_callback ?s ?e ?r ?w1] =>
          pose proof (_updateWorkerData_callback_run s e r w1) as Hu
      end.
      name_result Hu. destruct Hu as (-> & Hs & Hc & Hn & _). cbn in *.
      eapply invariant_reply_load; [exact Hinv|exact Hcall|by rewrite Hs|done..].
    + unfold loadTile_callback. run. cbn.
      rewrite !lookup_alter_eq.
      destruct (tiles w !! tile) as [t|]; cbn;
        [|by eapply invariant_reply_other; [exact Hinv|exact Hcall|by intros []|..]].
      destruct (aborted t); cbn;
        [by eapply invariant_reply_other; [exact Hinv|exact Hcall|by intros []|..]|].
      destruct err; cbn;
        by eapply invariant_reply_other; [exact Hinv|exact Hcall|by intros []|..].
    + run. by eapply invariant_reply_other; [exact Hinv|exact Hcall|by intros []|..].
Qed.
Lemma exec_counter ops w :
  counter_invariant w → counter_invariant (exec ops w).
Proof.
  revert w. induction ops as [|op ops IH]; intros w Hinv; cbn; [done|].
  by apply IH, step_counter.
Qed.

Lemma new_world_counter id options workerOptions m p ts :
  counter_invariant (new_world (constructor id options workerOptions) m p ts).
Proof.
  split; [done|]. intros call [c Hc]. cbn in Hc. by rewrite lookup_empty in Hc.
Qed.

(** *** An aborted tile stays aborted *)

Lemma alter_keeps_aborted (f : Tile → Tile) (m : gmap nat Tile) tile' tile :
  keeps_aborted f →
  (∃ t, m !! tile = Some t ∧ aborted t = true) →
  ∃ t, alter f tile' m !! tile = Some t ∧ aborted t = true.
Proof.
  intros Hf (t & Ht & Ha). rewrite lookup_alter.
  destruct (decide (tile' = tile)) as [->|]; [|by exists t].
  rewrite Ht. exists (f t). split; [done|]. by apply Hf.
Qed.

Lemma step_keeps_aborted op w tile :
  tile_aborted w tile → tile_aborted (world (step op w)) tile.
Proof.
  unfold tile_aborted. intros Ha.
  assert (Hu : ∀ s w1, tiles w1 = tiles w →
    ∃ t, tiles (world (_updateWorkerData s w1)) !! tile = Some t ∧ aborted t = true).
  { intros s w1 Hw1. pose proof (_updateWorkerData_run s w1) as Hu.
    name_result Hu. destruct Hu as (_ & _ & _ & _ & _ & Ht & _). cbn. by rewrite Ht, Hw1. }
  destruct op as [m| |d|tile' cb|tile'|tile'| |call err result]; cbn [step].
  - unfold onAdd, load. run.
    match goal with
    | |- context [_updateWorkerData ?s ?w1] => specialize (Hu s w1 eq_refl)
    end.
    by destruct (_updateWorkerData _ _) as [[? ?] []].
  - by apply Hu.
  - unfold setData. run.
    match goal with
    | |- context [_updateWorkerData ?s ?w1] => specialize (Hu s w1 eq_refl)
    end.
    by destruct (_updateWorkerData _ _) as [[? ?] []].
  - unfold loadTile. run.
    destruct (tiles w !! tile') as [t'|]; cbn; [|done].
    destruct (planet w); cbn; by repeat (apply alter_keeps_aborted; [by intros [] ?|]).
  - unfold abortTile. run.
    destruct (tiles w !! tile') as [t'|]; cbn; [|done].
    destruct (request t'); cbn; by repeat (apply alter_keeps_aborted; [by intros [] ?|]).
  - unfold unloadTile. run.
    destruct (tiles w !! tile') as [t'|]; cbn; [|done].
    by repeat (apply alter_keeps_aborted; [by intros [] ?|]).
  - unfold onRemove. by run.
  - unfold reply.
    destruct (calls w !! call) as [[sdt|tile' reload cb|]|] eqn:Hcall; [| | |done].
    + run.
      pose proof (_updateWorkerData_callback_run sdt err result
        {| source := source w; map := map w; planet := planet w; tiles := tiles w;
           calls := delete call (calls w); nextCall := nextCall w |}) as Hc.
      name_result Hc. destruct Hc as (_ & _ & _ & _ & Ht & _). cbn in *. by rewrite Ht.
    + unfold loadTile_callback. run. cbn.
      rewrite !lookup_alter_eq.
      destruct (tiles w !! tile') as [t'|]; cbn;
        [|by repeat (apply alter_keeps_aborted; [by intros [] ?|])].
      destruct (aborted t'); cbn; [by repeat (apply alter_keeps_aborted; [by intros [] ?|])|].
      destruct err; cbn; by repeat (apply alter_keeps_aborted; [by intros [] ?|]).
    + by run.
Qed.

Lemma exec_keeps_aborted ops w tile :
  tile_aborted w tile → tile_aborted (exec ops w) tile.
Proof.
  revert w. induction ops as [|op ops IH]; intros w Ha; cbn; [done|].
  by apply IH, step_keeps_aborted.
Qed.

(** *** The response to a tile request on an aborted tile *)

Lemma reply_on_aborted_tile w tile t call reload cb err data :
  tiles w !! tile = Some t → aborted t = true →
  calls w !! call = Some (LoadTileCallback tile reload cb) →
  reply call err data w
  = ([EvUnloadVectorData tile; EvCallback cb None],
     {| source := source w; map := map w; planet := planet w;
        tiles := <[tile := unloadVectorData (set_tile_request None t)]> (tiles w);
        calls := delete call (calls w); nextCall := nextCall w |},
     Normal tt).
Proof.
  intros Ht Ha Hcall. unfold reply. rewrite Hcall.
  unfold loadTile_callback. run. cbn.
  rewrite !lookup_alter_eq, Ht. cbn. rewrite Ha. cbn.
  do 2 f_equal. f_equal.
  apply map_eq. intros i.
  destruct (decide (tile = i)) as [->|Hne].
  - by rewrite !lookup_alter_eq, lookup_insert_eq, Ht.
  - by rewrite !lookup_alter_ne, lookup_insert_ne.
Qed.

(** *** The [planet] is asked and logged, and nothing else *)

Lemma loadTile_with_planet tile cb w p :
  let w0 := setPlanetVectorTilePlugin None w in
  let w1 := setPlanetVectorTilePlugin (Some p) w in
  events (loadTile tile cb w1) = planet_log w1 tile ++ events (loadTile tile cb w0)
  ∧ world (loadTile tile cb w1)
    = setPlanetVectorTilePlugin (Some p) (world (loadTile tile cb w0))
  ∧ outcome (loadTile tile cb w1) = outcome (loadTile tile cb w0).
Proof.
  unfold loadTile, planet_log, setPlanetVectorTilePlugin. run. cbn.
  by destruct (tiles w !! tile) as [t|].
Qed.

Lemma reply_ignores_planet call err result w p :
  let w0 := setPlanetVectorTilePlugin None w in
  let w1 := setPlanetVectorTilePlugin (Some p) w in
  events (reply call err result w1) = events (reply call err result w0)
  ∧ world (reply call err result w1)
    = setPlanetVectorTilePlugin (Some p) (world (reply call err result w0))
  ∧ outcome (reply call err result w1) = outcome (reply call err result w0).
Proof.
  unfold reply, setPlanetVectorTilePlugin. cbn.
  destruct (calls w !! call) as [[sdt|tile reload cb|]|]; [| |done..].
  - unfold _updateWorkerData_callback. run. cbn.
    destruct (_removed (source w) || result_is_abandoned result); [done|].
    by destruct err.
  - unfold loadTile_callback. run. cbn.
    destruct (alter _ _ _ !! tile) as [t|]; [|done]. cbn.
    destruct (aborted t); [done|]. by destruct err.
Qed.

(** ** The claims about the source *)

(** C5.  [setData] stores the data, adds one to the counter of pending
    loads, fires "dataloading" and sends a content [loadData] to the worker.
    When the response to that call arrives, whatever it is and whatever
    happened in between, exactly one notification is fired: "dataabort" when
    the source was removed or the result is an abandonment, else the error
    when there is one, else "data".  An abandonment is never reported as an
    error. *)
Theorem setData_ends_in_one_notification d w :
  let r := setData d w in
  let call := nextCall w in
  _data (source (world r)) = d
  ∧ _pendingLoads (source (world r)) = _pendingLoads (source w) + 1
  ∧ (∃ options,
       events r = [EvFire dataloading;
                   EvSend call (MsgLoadData (type (source w)) options)])
  ∧ calls (world r) !! call = Some (UpdateWorkerDataCallback content)
  ∧ ∀ w' err result,
      calls w' !! call = Some (UpdateWorkerDataCallback content) →
      let r' := reply call err result w' in
      calls (world r') !! call = None
      ∧ _pendingLoads (source (world r')) = _pendingLoads (source w') - 1
      ∧ ∃ n, events r' = [EvFire n]
          ∧ match n with
            | dataloading => False
            | dataabort s =>
                s = content
                ∧ (_removed (source w') = true ∨ result_is_abandoned result = true)
            | error e =>
                err = Some e
                ∧ _removed (source w') = false ∧ result_is_abandoned result = false
            | data s _ =>
                s = content ∧ err = None
                ∧ _removed (source w') = false ∧ result_is_abandoned result = false
            end
          ∧ (result_is_abandoned result = true → n = dataabort content).
Proof.
  cbv zeta. unfold setData. run.
  match goal with
  | |- context [_updateWorkerData ?s ?w1] =>
      pose proof (_updateWorkerData_run s w1) as Hu
  end.
  name_result Hu. destruct Hu as (-> & [options ->] & Hs & Hc & _). cbn in *.
  rewrite Hs, Hc. cbn. rewrite lookup_insert_eq.
  split; [done|]. split; [done|]. split; [by exists options|]. split; [done|].
  intros w1 err result Hcall. unfold reply. rewrite Hcall. run.
  match goal with
  | |- context [_updateWorkerData_callback ?s ?e ?r ?w2] =>
      pose proof (_updateWorkerData_callback_run s e r w2) as Hcb
  end.
  name_result Hcb. destruct Hcb as (_ & Hs' & Hc' & _ & _ & n & -> & Hn). cbn in *.
  rewrite Hs', Hc', lookup_delete_eq. cbn. split; [done|]. split; [done|].
  exists n. split; [done|]. split; [done|].
  intros Ha. destruct n as [|s|e|s rt]; [done|by destruct Hn as [-> _]|..].
  - destruct Hn as (_ & _ & ?). congruence.
  - destruct Hn as (_ & _ & _ & ?). congruence.
Qed.

(** C6.  In every run of a freshly constructed source, the counter of
    pending loads is the number of data loads the actor has outstanding: it
    is never negative, [setData] adds one to it, the response to a data load
    (a result, an error or an abandonment) takes one off and ends that load,
    and with no data load outstanding it is 0.  [loaded] is true exactly when
    the counter is 0. *)
Theorem pending_loads_counter id options workerOptions m p ts ops :
  let w := exec ops (new_world (constructor id options workerOptions) m p ts) in
  0 ≤ _pendingLoads (source w)
  ∧ _pendingLoads (source w) = Z.of_nat (outstanding_loads w)
  ∧ (loaded (source w) = true ↔ _pendingLoads (source w) = 0)
  ∧ (outstanding_loads w = 0%nat → loaded (source w) = true)
  ∧ (∀ d, let w' := world (setData d w) in
       _pendingLoads (source w') = _pendingLoads (source w) + 1
       ∧ outstanding_loads w' = S (outstanding_loads w))
  ∧ (∀ call sdt err result,
       calls w !! call = Some (UpdateWorkerDataCallback sdt) →
       let w' := world (reply call err result w) in
       _pendingLoads (source w') = _pendingLoads (source w) - 1
       ∧ S (outstanding_loads w') = outstanding_loads w
       ∧ calls w' !! call = None).
Proof.
  cbv zeta.
  pose proof (exec_counter ops _ (new_world_counter id options workerOptions m p ts))
    as Hinv.
  set (w := exec ops _) in *.
  destruct Hinv as [Hn Hfresh]. unfold loaded. rewrite Z.eqb_eq.
  split; [lia|]. split; [done|]. split; [done|]. split; [lia|]. split.
  - intros d.
    destruct (step_counter (OpSetData d) w (conj Hn Hfresh)) as [Hn' _].
    cbn [step] in Hn'. split; [|unfold outstanding_loads in *].
    all: unfold setData in *; revert Hn'; run;
      match goal with
      | |- context [_updateWorkerData ?s ?w1] =>
          pose proof (_updateWorkerData_run s w1) as Hu
      end;
      name_result Hu; destruct Hu as (_ & _ & Hs & Hc & _); cbn in *;
      rewrite Hs; cbn; intros Hn'; unfold outstanding_loads in *; lia.
  - intros call sdt err result Hcall.
    destruct (step_counter (OpReply call err result) w (conj Hn Hfresh)) as [Hn' _].
    cbn [step] in Hn'.
    assert (Hr : _pendingLoads (source (world (reply call err result w)))
                 = _pendingLoads (source w) - 1
                 ∧ calls (world (reply call err result w)) !! call = None).
    { unfold reply. rewrite Hcall. run.
      match goal with
      | |- context [_updateWorkerData_callback ?s ?e ?r ?w2] =>
          pose proof (_updateWorkerData_callback_run s e r w2) as Hcb
      end.
      name_result Hcb. destruct Hcb as (_ & Hs' & Hc' & _). cbn in *.
      by rewrite Hs', Hc', lookup_delete_eq. }
    destruct Hr as [Hp Hgone]. split; [done|]. split; [lia|done].
Qed.

(** X21.  [abortTile] cancels the request whose handle the tile holds in
    [tile.request], if it holds one, deletes the handle and marks the tile
    aborted.  Whatever the source does afterwards, the response to a request
    of that tile is ignored: whether it carries data or an error, the tile
    is never given data ([loadVectorData] is not called, the tile holds
    none) and the caller's callback gets neither data nor error. *)
Theorem abortTile_ignores_late_completion w tile t ops call reload cb err data :
  tiles w !! tile = Some t →
  let r := abortTile tile w in
  let w' := exec ops (world r) in
  calls w' !! call = Some (LoadTileCallback tile reload cb) →
  events r = match request t with Some c => [EvCancel c] | None => [] end
  ∧ tiles (world r) !! tile = Some (set_tile_aborted (set_tile_request None t))
  ∧ events (reply call err data w') = [EvUnloadVectorData tile; EvCallback cb None]
  ∧ (∃ t', tiles (world (reply call err data w')) !! tile = Some t'
           ∧ vectorData t' = None ∧ aborted t' = true)
  ∧ ∀ err' data', reply call err' data' w' = reply call err data w'.
Proof.
  cbv zeta. intros Ht Hcall.
  assert (Habort :
    events (abortTile tile w) = match request t with Some c => [EvCancel c] | None => [] end
    ∧ tiles (world (abortTile tile w)) !! tile
      = Some (set_tile_aborted (set_tile_request None t))).
  { unfold abortTile. run. rewrite Ht. cbn.
    destruct t as [u i a [c|] ab v]; cbn; rewrite ?lookup_alter_eq, Ht; by cbn. }
  destruct Habort as [Hev Htile]. split; [done|]. split; [done|].
  assert (Ha : tile_aborted (exec ops (world (abortTile tile w))) tile).
  { apply exec_keeps_aborted. by eexists. }
  destruct Ha as (t' & Ht' & Ha').
  rewrite (reply_on_aborted_tile _ _ _ _ _ _ err data Ht' Ha' Hcall).
  split; [done|]. split.
  - cbn. rewrite lookup_insert_eq. eexists. split; [done|]. by cbn.
  - intros err' data'. by rewrite (reply_on_aborted_tile _ _ _ _ _ _ err' data' Ht' Ha' Hcall).
Qed.

(** C8, as amended.  With a provider configured, [loadTile] asks it for the
    tile's coordinate and logs the answer, and that is all the provider has
    to do with the tile: the request is sent to the worker as it is without
    a provider, and so is the response to it handled.  In the worker, a
    coordinate the index has no tile for is answered with neither error nor
    data. *)
Theorem planet_is_asked_and_logged tile cb call err result w p :
  let w0 := setPlanetVectorTilePlugin None w in
  let w1 := setPlanetVectorTilePlugin (Some p) w in
  (events (loadTile tile cb w1) = planet_log w1 tile ++ events (loadTile tile cb w0)
   ∧ world (loadTile tile cb w1)
     = setPlanetVectorTilePlugin (Some p) (world (loadTile tile cb w0))
   ∧ outcome (loadTile tile cb w1) = outcome (loadTile tile cb w0))
  ∧ (events (reply call err result w1) = events (reply call err result w0)
     ∧ world (reply call err result w1)
       = setPlanetVectorTilePlugin (Some p) (world (reply call err result w0))
     ∧ outcome (reply call err result w1) = outcome (reply call err result w0))
  ∧ ∀ (libs : Worker.Externals) self params plugin,
      Worker._vectorTilePlugin self = Some plugin →
      Worker.getTile plugin (z (Worker.tileID params)) (x (Worker.tileID params))
        (y (Worker.tileID params)) = None →
      Worker.loadTile self params (λ err data, (err, data)) = (None, None).
Proof.
  cbv zeta. split; [apply loadTile_with_planet|]. split; [apply reply_ignores_planet|].
  intros libs self params plugin Hplugin Htile.
  rewrite WorkerProofs.loadTile_result. unfold Worker.encoded_tile.
  rewrite Hplugin. cbn. by rewrite Htile.
Qed.

(** C10.  The response to a [loadTile] or [reloadTile] request of an aborted
    tile: the request handle is dropped, the vector data the tile held is
    discarded, and then the callback is invoked, once, with [null]; data and
    error of the response go nowhere, and the call is over. *)
Theorem aborted_tile_completion_calls_back_with_null
    w tile t call reload cb err data :
  tiles w !! tile = Some t →
  aborted t = true →
  calls w !! call = Some (LoadTileCallback tile reload cb) →
  let r := reply call err data w in
  events r = [EvUnloadVectorData tile; EvCallback cb None]
  ∧ outcome r = Normal tt
  ∧ tiles (world r) !! tile = Some (unloadVectorData (set_tile_request None t))
  ∧ calls (world r) !! call = None.
Proof.
  cbv zeta. intros Ht Ha Hcall. rewrite (reply_on_aborted_tile _ _ _ _ _ _ _ _ Ht Ha Hcall).
  cbn. by rewrite lookup_insert_eq, lookup_delete_eq.
Qed.

End Facts.

(** ** The claims on concrete runs *)

#[local] Existing Instance Toy.libs.

(** A remote data load that comes back abandoned, with an error besides:
    "dataabort" is fired, the error is not. *)
Lemma setData_ends_in_one_notification_witness :
  let w := world (setData (DataURL "u") Toy.world0) in
  let result := Some (DataResult result_abandoned) in
  calls w !! 0%nat = Some (UpdateWorkerDataCallback content)
  ∧ events (reply 0 (Some (AJAXError 500)) result w) = [EvFire (dataabort content)].
Proof.
  cbv zeta.
  destruct (setData_ends_in_one_notification (DataURL "u") Toy.world0)
    as (_ & _ & _ & Hcall & Hreply).
  split; [exact Hcall|].
  destruct (Hreply _ (Some (AJAXError 500)) (Some (DataResult result_abandoned)) Hcall)
    as (_ & _ & n & Hev & _ & Habandoned).
  etransitivity; [exact Hev|]. rewrite (Habandoned eq_refl). reflexivity.
Defined.

(** Two data loads and their responses: the counter is back at 0. *)
Lemma pending_loads_counter_witness :
  let ops := [OpSetData (DataURL "u"); OpSetData (DataObject JNull);
              OpReply 0 None (Some (DataResult result_abandoned));
              OpReply 1 (Some (AJAXError 404)) None] in
  let w := exec ops Toy.world0 in
  outstanding_loads w = 0%nat ∧ loaded (source w) = true.
Proof.
  cbv zeta.
  assert (Hnone : outstanding_loads
    (exec [OpSetData (DataURL "u"); OpSetData (DataObject JNull);
           OpReply 0 None (Some (DataResult result_abandoned));
           OpReply 1 (Some (AJAXError 404)) None] Toy.world0) = 0%nat)
    by (vm_compute; reflexivity).
  split; [exact Hnone|].
  exact (proj1 (proj2 (proj2 (proj2
    (pending_loads_counter "s" Toy.options [] Toy.map0 None {[ 0%nat := Toy.tile0 ]} _))))
    Hnone).
Defined.

(** A tile is requested, aborted, and answered with data after all, a data
    load having started in between. *)
Lemma abortTile_ignores_late_completion_witness :
  let w := exec [OpLoadTile 0 1] Toy.world0 in
  let w' := exec [OpSetData (DataURL "u")] (world (abortTile 0 w)) in
  calls w' !! 0%nat = Some (LoadTileCallback 0 false 1)
  ∧ events (abortTile 0 w) = [EvCancel 0]
  ∧ events (reply 0 None (Some (TileResult ["1"%byte])) w')
    = [EvUnloadVectorData 0; EvCallback 1 None].
Proof.
  cbv zeta.
  assert (Ht : tiles (exec [OpLoadTile 0 1] Toy.world0) !! 0%nat
               = Some {| uid := 7; tileID := tileID Toy.tile0; actor := true;
                         request := Some 0%nat; aborted := false;
                         vectorData := vectorData Toy.tile0 |})
    by (vm_compute; reflexivity).
  assert (Hcall : calls (exec [OpSetData (DataURL "u")]
                    (world (abortTile 0 (exec [OpLoadTile 0 1] Toy.world0)))) !! 0%nat
                  = Some (LoadTileCallback 0 false 1))
    by (vm_compute; reflexivity).
  split; [exact Hcall|].
  destruct (abortTile_ignores_late_completion _ _ _ [OpSetData (DataURL "u")] _ _ _
              None (Some (TileResult ["1"%byte])) Ht Hcall) as (Hev & _ & Hreply & _).
  split; [exact Hev|exact Hreply].
Defined.

(** C7, the code at the failing input.  A tile is requested twice and the
    response to the first request arrives: its callback deletes
    [tile.request], which by then holds the handle of the second request.
    The second request is still outstanding, but [abortTile] finds no handle
    and cancels nothing, where the claim has it cancel the request the tile
    has in flight; without the response in between, [abortTile] does cancel
    the second request. *)
Theorem abortTile_misses_the_request_in_flight :
  let w := exec [OpLoadTile 0 1; OpLoadTile 0 2] Toy.world0 in
  let w' := exec [OpReply 0 None (Some (TileResult ["1"%byte]))] w in
  events (abortTile 0 w) = [EvCancel 1]
  ∧ calls w' !! 1%nat = Some (LoadTileCallback 0 true 2)
  ∧ request <$> tiles w' !! 0%nat = Some None
  ∧ events (abortTile 0 w') = []
  ∧ calls (world (abortTile 0 w')) !! 1%nat = Some (LoadTileCallback 0 true 2).
Proof. cbv zeta. split_and!; vm_compute; reflexivity. Qed.

(** C8, the claim as stated fails: with a provider that has a tile for every
    coordinate, [loadTile] still sends the request to the worker. *)
Lemma loadTile_with_planet_still_asks_worker :
  ¬ spec_bypasses_index (loadTile 0 1 Toy.world_with_planet).
Proof.
  intros Hbypass.
  eapply (Hbypass 0%nat). vm_compute. apply list_elem_of_further, list_elem_of_here.
Qed.

(** With the provider configured, the tile ends up with the data of the
    worker's response, not with what the provider returned. *)
Example tile_gets_the_data_of_the_response :
  let w := exec [OpLoadTile 0 1; OpReply 0 None (Some (TileResult ["9"%byte]))]
             Toy.world_with_planet in
  vectorData <$> tiles w !! 0%nat = Some (Some (Some (TileResult ["9"%byte]), false)).
Proof. reflexivity. Qed.

(** The provider of [Toy.world_with_planet] is asked and logged; the request
    goes out as it does without it. *)
Lemma planet_is_asked_and_logged_witness :
  events (loadTile 0 1 Toy.world_with_planet)
  = EvConsoleLog (getTile Toy.planet0 0 0 0) :: events (loadTile 0 1 Toy.world0).
Proof.
  exact (proj1 (proj1 (planet_is_asked_and_logged 0 1 0 None None Toy.world0 Toy.planet0))).
Defined.

(** An aborted tile that holds data gets the response to its request. *)
Lemma aborted_tile_completion_calls_back_with_null_witness :
  let w := exec [OpLoadTile 0 1; OpAbortTile 0] Toy.world0 in
  let r := reply 0 (Some (AJAXError 500)) None w in
  calls w !! 0%nat = Some (LoadTileCallback 0 false 1)
  ∧ events r = [EvUnloadVectorData 0; EvCallback 1 None]
  ∧ (vectorData <$> tiles (world r) !! 0%nat) = Some None.
Proof.
  cbv zeta.
  assert (Ht : tiles (exec [OpLoadTile 0 1; OpAbortTile 0] Toy.world0) !! 0%nat
               = Some {| uid := 7; tileID := tileID Toy.tile0; actor := true;
                         request := None; aborted := true;
                         vectorData := vectorData Toy.tile0 |})
    by (vm_compute; reflexivity).
  assert (Hcall : calls (exec [OpLoadTile 0 1; OpAbortTile 0] Toy.world0) !! 0%nat
                  = Some (LoadTileCallback 0 false 1))
    by (vm_compute; reflexivity).
  split; [exact Hcall|].
  destruct (aborted_tile_completion_calls_back_with_null _ _ _ _ _ _
              (Some (AJAXError 500)) None Ht eq_refl Hcall) as (Hev & _ & Htile & _).
  split; [exact Hev|]. rewrite Htile. reflexivity.
Defined.

End SourceProofs.

Module WorkerCoverage.
Import Worker WorkerProofs.

Section Facts.
Context `{!Externals}.

Lemma size_at_most_one {A} (m : gmap nat A) :
  (∀ i j x y, m !! i = Some x → m !! j = Some y → i = j) → (size m ≤ 1)%nat.
Proof.
  intros Hkeys. destruct (decide (m = ∅)) as [->|Hne]; [by rewrite map_size_empty; lia|].
  destruct (map_choose _ Hne) as (i & x & Hi).
  assert (m = {[i := x]}) as ->.
  { apply map_eq. intros j. destruct (decide (j = i)) as [->|Hj].
    - by rewrite lookup_singleton_eq.
    - rewrite lookup_singleton_ne by done.
      destruct (m !! j) as [y|] eqn:Hy; [|done]. by destruct (Hj (Hkeys _ _ _ _ Hy Hi)). }
  by rewrite map_size_singleton.
Qed.

(** X1.  In every run of a worker source at most one request is in flight.
    A request in flight is the pending request and its callback the pending
    callback; and whenever a callback is pending, a request is in flight that
    will call it. *)
Theorem one_request_in_flight pre :
  let w := exec pre new_world in
  (size (ajax w) ≤ 1)%nat
  ∧ (∀ id cl, ajax w !! id = Some cl →
       _pendingRequest (this w) = Some (AjaxRequest id)
       ∧ _pendingCallback (this w) = Some (cl_callback cl))
  ∧ (∀ pending, _pendingCallback (this w) = Some pending →
       ∃ id cl, ajax w !! id = Some cl ∧ cl_callback cl = pending).
Proof.
  cbv zeta. destruct (exec_pending_matches pre) as [Hm Hp]. split; [|split; [done|]].
  - apply size_at_most_one. intros i j x y Hi Hj.
    destruct (Hm _ _ Hi) as [Hri _], (Hm _ _ Hj) as [Hrj _]. congruence.
  - intros pending Hpe. destruct (Hp _ Hpe) as (id & cl & Hl).
    exists id, cl. split; [done|]. destruct (Hm _ _ Hl) as [_ Hcb]. congruence.
Qed.

(** Deciding when a callback was invoked as [callback(null)]. *)
Ltac null_callback :=
  split; [intros [? ?]; simplify_eq; eauto 10
         |intros (? & ? & ? & ? & ?); simplify_eq; first [done|congruence]].

(** X2.  An inline load (no [request]) is over when [loadData] returns:
    [loadData] does not throw, its callback has been invoked exactly once
    and never with an abandonment, no callback is pending, and the pending
    request is the no-op handle.  The callback gets a result and no error,
    or an error and no result, or neither of them: it is invoked as
    [callback(null)] exactly when the text parses to a falsy value ([null],
    [0], [false], the empty string). *)
Theorem inline_loadData_completes params callback w :
  request params = None →
  let r := loadData params callback w in
  outcome r = Normal tt
  ∧ (∃ err res,
       events r = cancel_previous w ++ abandon_previous w
                  ++ [EvLoadGeoJSON params; EvDataCallback callback err res]
       ∧ is_abandoned res = false
       ∧ ((is_Some res ∧ err = None)
          ∨ (res = None ∧ is_Some err)
          ∨ (res = None ∧ err = None))
       ∧ (res = None ∧ err = None
          ↔ ∃ text v, data params = Some text ∧ JSON_parse text = Some v
                      ∧ falsy v = true))
  ∧ _pendingCallback (this (world r)) = None
  ∧ _pendingRequest (this (world r)) = Some NoopCancel
  ∧ ajax (world r) = ajax_after_cancel w.
Proof.
  cbv zeta. intros Hreq.
  unfold loadData, loadGeoJSON, cancel_previous, abandon_previous, ajax_after_cancel.
  rewrite Hreq. run.
  destruct w as [[pcb preq idx ld] aj nx]; cbn.
  assert (Hsome : ∀ (A : Type) (a : A), is_Some (Some a)) by (by eexists).
  destruct (data params) as [text|] eqn:Hdata.
  2:{ unfold loadData_response. run.
      destruct preq as [[id|]|], pcb as [p|]; cbn;
        (split; [done|]); (split; [|done]); eexists _, _; (split; [done|]);
        (split; [done|]); (split; [auto|]); null_callback. }
  destruct (JSON_parse text) as [v|] eqn:Hparse.
  2:{ unfold loadData_response. run.
      destruct preq as [[id|]|], pcb as [p|]; cbn;
        (split; [done|]); (split; [|done]); eexists _, _; (split; [done|]);
        (split; [done|]); (split; [auto|]); null_callback. }
  unfold loadData_response. run. cbn.
  destruct (falsy v) eqn:Hf; cbn.
  { destruct preq as [[id|]|], pcb as [p|]; cbn;
      (split; [done|]); (split; [|done]); eexists _, _; (split; [done|]);
      (split; [done|]); (split; [auto|]); null_callback. }
  destruct (typeof_object v); cbn.
  2:{ destruct preq as [[id|]|], pcb as [p|]; cbn;
        (split; [done|]); (split; [|done]); eexists _, _; (split; [done|]);
        (split; [done|]); (split; [auto|]); null_callback. }
  destruct (rewind v) as [e'|v'] eqn:Hrewind; cbn.
  { destruct preq as [[id|]|], pcb as [p|]; cbn;
      (split; [done|]); (split; [|done]); eexists _, _; (split; [done|]);
      (split; [done|]); (split; [auto|]); null_callback. }
  destruct (geojsonvt v' _) as [e'|index] eqn:Hvt; cbn.
  { destruct preq as [[id|]|], pcb as [p|]; cbn;
      (split; [done|]); (split; [|done]); eexists _, _; (split; [done|]);
      (split; [done|]); (split; [auto|]); null_callback. }
  destruct preq as [[id|]|], pcb as [p|]; cbn;
    (split; [done|]); (split; [|done]); eexists _, _; (split; [done|]);
    (split; [done|]); (split; [auto|]); null_callback.
Qed.

(** X3.  The errors an inline load reports: the error its callback gets is
    "not a valid GeoJSON object", naming the source (text that does not
    parse, no text at all, a value that is no object, an exception of
    [rewind]), or else what [geojsonvt] threw on the parsed and rewound
    data. *)
Theorem inline_load_errors params callback w cb e res :
  request params = None →
  EvDataCallback cb (Some e) res ∈ events (loadData params callback w) →
  cb = callback ∧ res = None ∧ inline_load_error params e.
Proof.
  intros Hreq. unfold inline_load_error, loadData, loadGeoJSON. rewrite Hreq. run.
  destruct w as [[pcb preq idx ld] aj nx]; cbn.
  destruct (data params) as [text|] eqn:Hdata.
  2:{ unfold loadData_response. run.
      destruct preq as [[id|]|], pcb as [p|]; cbn; intros Hin;
        decompose_list_elem_of; simplify_eq; auto. }
  destruct (JSON_parse text) as [v|] eqn:Hparse.
  2:{ unfold loadData_response. run.
      destruct preq as [[id|]|], pcb as [p|]; cbn; intros Hin;
        decompose_list_elem_of; simplify_eq; auto. }
  unfold loadData_response. run. cbn.
  destruct (falsy v); cbn.
  { destruct preq as [[id|]|], pcb as [p|]; cbn; intros Hin;
      decompose_list_elem_of; simplify_eq. }
  destruct (typeof_object v); cbn.
  2:{ destruct preq as [[id|]|], pcb as [p|]; cbn; intros Hin;
        decompose_list_elem_of; simplify_eq; auto. }
  destruct (rewind v) as [e'|v'] eqn:Hrewind; cbn.
  { destruct preq as [[id|]|], pcb as [p|]; cbn; intros Hin;
      decompose_list_elem_of; simplify_eq; auto. }
  destruct (geojsonvt v' _) as [e'|index] eqn:Hvt; cbn.
  { destruct preq as [[id|]|], pcb as [p|]; cbn; intros Hin;
      decompose_list_elem_of; simplify_eq; (split; [done|]); (split; [done|]);
      right; by exists text, v, v'. }
  destruct preq as [[id|]|], pcb as [p|]; cbn; intros Hin;
    decompose_list_elem_of; simplify_eq.
Qed.

(** X4.  Data on which [rewind] throws.  [rewind] is called outside the
    [try] of the callback of [loadData], so one run of that callback lets
    the exception through: this run does not invoke the caller's callback,
    the pending callback and request are already deleted, and the index and
    the loaded tiles are what they were.  In an inline load the [try] of
    [loadGeoJSON] catches the exception and runs the callback again with
    its own error: the caller's callback gets "not a valid GeoJSON object"
    naming the source, once, and not what [rewind] threw. *)
Theorem rewind_exception_leaves_the_callback cl v e w :
  falsy v = false → typeof_object v = true →
  rewind v = inl e →
  (loadData_response cl None v w = ([], cleared w, Thrown e)
   ∧ same_index w (cleared w))
  ∧ ∀ params callback text w0,
      request params = None → data params = Some text →
      JSON_parse text = Some v →
      let r := loadData params callback w0 in
      outcome r = Normal tt
      ∧ events r = cancel_previous w0 ++ abandon_previous w0
                   ++ [EvLoadGeoJSON params;
                       EvDataCallback callback (Some (InvalidGeoJSON (source params)))
                         None]
      ∧ same_index w0 (world r).
Proof.
  intros Hf Ht Hr. split.
  - split; [|done]. unfold loadData_response, cleared. run. cbn. rewrite Hf, Ht, Hr. by cbn.
  - cbv zeta. intros params callback text w0 Hreq Hdata Hparse.
    unfold loadData, loadGeoJSON, loadData_response, cancel_previous, abandon_previous,
      same_index.
    rewrite Hreq, Hdata, Hparse. run. cbn. rewrite Hf, Ht, Hr. cbn.
    destruct w0 as [[pcb preq idx ld] aj nx]; cbn.
    by destruct preq as [[id|]|], pcb as [p|].
Qed.

(** X5.  A response with an error, or with no data ([null], [undefined],
    [0], the empty string, [false]): the callback gets the error as it came
    (none, when only the data is missing) and no result; nothing is pending
    afterwards, and the index and the loaded tiles are what they were. *)
Theorem response_without_data id cl err data w :
  ajax w !! id = Some cl →
  is_Some err ∨ falsy data = true →
  let r := response id err data w in
  events r = [EvDataCallback (cl_callback cl) err None]
  ∧ outcome r = Normal tt
  ∧ same_index w (world r)
  ∧ _pendingCallback (this (world r)) = None
  ∧ _pendingRequest (this (world r)) = None
  ∧ ajax (world r) = delete id (ajax w).
Proof.
  cbv zeta. intros Hcl Hno. unfold response, loadData_response, same_index.
  rewrite Hcl. run. cbn.
  assert (bool_decide (is_Some err) || falsy data = true) as ->.
  { destruct Hno as [Herr| ->]; [|by rewrite orb_true_r].
    by rewrite bool_decide_eq_true_2. }
  by cbn.
Qed.

(** X6.  Whenever a data callback is handed a result that is not an
    abandonment, the step was an inline [loadData] call of that callback or
    the response to its request, and the index is now the one [geojsonvt]
    built from the rewound data with the [geojsonVtOptions] of the call; the
    set of loaded tiles is empty and no callback is pending.  So no tile
    counts as loaded: the next [reloadTile], of whatever tile, takes the
    [loadTile] branch, answers with the tile encoded from the new index, and
    marks the tile loaded. *)
Theorem successful_load_resets_loaded op w cb res :
  EvDataCallback cb None (Some res) ∈ events (step op w) →
  abandoned res = false →
  let w' := world (step op w) in
  (∃ params v v' index,
      ((op = OpLoadData params cb ∧ request params = None
        ∧ ∃ text, data params = Some text ∧ JSON_parse text = Some v)
       ∨ (∃ id cl, op = OpResponse id None v ∧ ajax w !! id = Some cl
                   ∧ cl_params cl = params ∧ cl_callback cl = cb))
      ∧ rewind v = inr v'
      ∧ geojsonvt v' (geojsonVtOptions params) = inr index
      ∧ _vectorTilePlugin (this w') = Some index)
  ∧ loaded (this w') = Some ∅
  ∧ _pendingCallback (this w') = None
  ∧ ∀ params callback,
      loaded (this w') ≫= (.!! uid params) = None
      ∧ events (reloadTile params callback w')
        = [EvTileCallback callback None (encoded_tile (this w') params)]
      ∧ loaded (this (world (reloadTile params callback w')))
        = Some {[ uid params := EncodedOnce ]}.
Proof.
  cbv zeta. intros Hin Hres.
  assert (Hmain :
    (∃ params v v' index,
        ((op = OpLoadData params cb ∧ request params = None
          ∧ ∃ text, data params = Some text ∧ JSON_parse text = Some v)
         ∨ (∃ id cl, op = OpResponse id None v ∧ ajax w !! id = Some cl
                     ∧ cl_params cl = params ∧ cl_callback cl = cb))
        ∧ rewind v = inr v'
        ∧ geojsonvt v' (geojsonVtOptions params) = inr index
        ∧ _vectorTilePlugin (this (world (step op w))) = Some index)
    ∧ loaded (this (world (step op w))) = Some ∅
    ∧ _pendingCallback (this (world (step op w))) = None).
  { destruct op as [params callback|id e d|p c|p c|u c|c].
    - cbn [step] in *. revert Hin Hres.
      destruct (request params) as [req|] eqn:Hreq.
      { destruct (loadData_cases params callback w) as (_ & rest & Hev & Hcases).
        rewrite Hev. unfold cancel_previous, abandon_previous.
        destruct Hcases as [(? & _ & -> & _)|(? & _)]; [|congruence].
        intros Hin Hres.
        destruct (_pendingRequest (this w)), (_pendingCallback (this w));
          decompose_list_elem_of; simplify_eq; done. }
      unfold loadData, loadGeoJSON. rewrite Hreq. run.
      destruct w as [[pcb preq idx ld] aj nx]; cbn.
      destruct (data params) as [text|] eqn:Hdata.
      2:{ unfold loadData_response. run.
          destruct preq as [[id|]|], pcb as [p|]; cbn; intros Hin Hres;
            decompose_list_elem_of; simplify_eq; done. }
      destruct (JSON_parse text) as [v|] eqn:Hparse.
      2:{ unfold loadData_response. run.
          destruct preq as [[id|]|], pcb as [p|]; cbn; intros Hin Hres;
            decompose_list_elem_of; simplify_eq; done. }
      unfold loadData_response. run. cbn.
      destruct (falsy v); cbn.
      { destruct preq as [[id|]|], pcb as [p|]; cbn; intros Hin Hres;
          decompose_list_elem_of; simplify_eq; done. }
      destruct (typeof_object v); cbn.
      2:{ destruct preq as [[id|]|], pcb as [p|]; cbn; intros Hin Hres;
            decompose_list_elem_of; simplify_eq; done. }
      destruct (rewind v) as [e'|v'] eqn:Hrewind; cbn.
      { destruct preq as [[id|]|], pcb as [p|]; cbn; intros Hin Hres;
          decompose_list_elem_of; simplify_eq; done. }
      destruct (geojsonvt v' _) as [e'|index] eqn:Hvt; cbn.
      { destruct preq as [[id|]|], pcb as [p|]; cbn; intros Hin Hres;
          decompose_list_elem_of; simplify_eq; done. }
      destruct preq as [[id|]|], pcb as [p|]; cbn; intros Hin Hres;
        decompose_list_elem_of; simplify_eq; try done;
        (split; [|done]); exists params, v, v', index;
        (split; [left; split; [done|]; split; [done|]; by exists text|done]).
    - cbn [step] in *. unfold response in *.
      destruct (ajax w !! id) as [cl|] eqn:Hcl;
        [|unfold events in Hin; cbn in Hin; by decompose_list_elem_of].
      revert Hin. run.
      match goal with
      | |- context [loadData_response cl e d ?w1] =>
          destruct (loadData_response_run cl e d w1)
            as [(v' & index & r & -> & _ & _ & Hr & Hvt & _ & ->)
               |[(? & _ & _ & _ & _ & ->)|(err' & -> & _)]]
      end; cbn; intros Hin; decompose_list_elem_of; simplify_eq.
      split; [|done]. exists (cl_params cl), d, v', index.
      split; [right; by exists id, cl|done].
    - destruct (other_ops_pending (OpLoadTile p c) w) as (_ & _ & Hev); [done..|].
      destruct (Hev _ _ _ Hin) as [_ Ha]. cbn in Ha. congruence.
    - destruct (other_ops_pending (OpReloadTile p c) w) as (_ & _ & Hev); [done..|].
      destruct (Hev _ _ _ Hin) as [_ Ha]. cbn in Ha. congruence.
    - destruct (other_ops_pending (OpRemoveTile u c) w) as (_ & _ & Hev); [done..|].
      destruct (Hev _ _ _ Hin) as [_ Ha]. cbn in Ha. congruence.
    - destruct (other_ops_pending (OpRemoveSource c) w) as (_ & _ & Hev); [done..|].
      destruct (Hev _ _ _ Hin) as [_ Ha]. cbn in Ha. congruence. }
  clear Hin. revert Hmain. generalize (world (step op w)). intros w' (Hi & Hl & Hp).
  split; [done|]. split; [done|]. split; [done|].
  intros params callback.
  destruct w' as [[pcb preq idx ld] aj nx]. cbn in Hl. subst ld.
  unfold reloadTile, super_loadTile. run. cbn. rewrite lookup_empty.
  rewrite loadTile_result. cbn. by rewrite insert_empty.
Qed.

(** X7.  A result carries resource timing only for a load that has a
    [request] with [collectResourceTiming] set; the timing is what
    [perf.finish()] returned and it is filed under [params.source]. *)
Theorem resourceTiming_of_a_result params callback err data w cb e r name entries :
  EvDataCallback cb e (Some r)
    ∈ events (loadData_response (closure_of params callback) err data w) →
  resourceTiming r = Some (name, entries) →
  name = source params
  ∧ ∃ req, request params = Some req ∧ collectResourceTiming req = true
           ∧ perf_finish req = Some entries.
Proof.
  unfold loadData_response, closure_of. run. cbn.
  destruct (bool_decide (is_Some err) || falsy data); cbn;
    [intros Hin; decompose_list_elem_of; simplify_eq|].
  destruct (typeof_object data); cbn;
    [|intros Hin; decompose_list_elem_of; simplify_eq].
  destruct (rewind data) as [?|v]; cbn; [intros Hin; by decompose_list_elem_of|].
  destruct (geojsonvt v _); cbn; [intros Hin; decompose_list_elem_of; simplify_eq|].
  destruct (request params) as [req|]; cbn;
    [destruct (collectResourceTiming req) eqn:Hc; cbn;
      [destruct (perf_finish req) eqn:Hf; cbn|]|];
    intros Hin Ht; decompose_list_elem_of; simplify_eq; cbn in Ht; simplify_eq.
  split; [done|]. by exists req.
Qed.

(** X8.  [removeSource] neither cancels the pending request nor forgets the
    pending callback: with a request in flight, the callback is told it has
    been abandoned, the acknowledgement follows, and the response that
    arrives afterwards is handled as if [removeSource] had not been called,
    the same callback being invoked again. *)
Theorem response_after_removeSource ack id cl err data w :
  ajax w !! id = Some cl →
  _pendingCallback (this w) = Some (cl_callback cl) →
  trace [OpRemoveSource ack; OpResponse id err data] w
  = EvDataCallback (cl_callback cl) None (Some result_abandoned)
    :: EvAck ack :: events (response id err data w)
  ∧ exec [OpRemoveSource ack; OpResponse id err data] w
    = world (response id err data w).
Proof.
  intros Hcl Hp. cbn [trace exec step]. rewrite removeSource_world.
  split; [|done]. rewrite app_nil_r.
  unfold removeSource at 1. run. by rewrite Hp.
Qed.

(** X9.  The raw data of an encoded tile is exactly the bytes the encoder's
    array views, also when the array is a view into a larger buffer: as many
    bytes as [byteLength], taken from [byteOffset] on. *)
Theorem rawData_has_encoded_length self params plugin tile :
  _vectorTilePlugin self = Some plugin →
  getTile plugin (z (tileID params)) (x (tileID params)) (y (tileID params))
    = Some tile →
  let pbf := vtpbf {| _features := features tile |} in
  (byteOffset pbf + byteLength pbf ≤ length (buffer pbf))%nat →
  ∃ result,
    loadTile self params (λ _ data, data) = Some result
    ∧ _features (vectorTile result) = features tile
    ∧ length (rawData result) = byteLength pbf
    ∧ ∀ i, (i < byteLength pbf)%nat →
        rawData result !! i = buffer pbf !! (byteOffset pbf + i)%nat.
Proof.
  cbv zeta. intros Hplugin Htile Hbounds.
  rewrite loadTile_result. unfold encoded_tile. rewrite Hplugin. cbn. rewrite Htile. cbn.
  eexists. split; [done|]. cbn. split; [done|]. unfold viewed. split.
  - rewrite length_take, length_drop. lia.
  - intros i Hi. rewrite lookup_take_lt by done. by rewrite lookup_drop.
Qed.

End Facts.

(** ** The properties on concrete runs *)

(** Inline text that parses to [null], loaded into a worker source that has
    an index: the callback is invoked with neither error nor result. *)
Lemma inline_loadData_completes_witness :
  request (Toy.inline "null") = None
  ∧ events (@loadData Toy.libs (Toy.inline "null") 5 Toy.loaded_world)
    = [EvCancel NoopCancel; EvLoadGeoJSON (Toy.inline "null"); EvDataCallback 5 None None].
Proof.
  split; [reflexivity|].
  destruct (@inline_loadData_completes Toy.libs (Toy.inline "null") 5
              Toy.loaded_world eq_refl) as (_ & (err & res & Hev & _ & _ & Hnull) & _).
  destruct (proj2 Hnull) as [-> ->].
  { exists "null"%string, JNull. repeat split; reflexivity. }
  exact Hev.
Defined.

Lemma inline_load_errors_witness :
  EvDataCallback 5 (Some (InvalidGeoJSON "s")) None
    ∈ events (@loadData Toy.libs (Toy.inline "x") 5 Toy.loaded_world)
  ∧ @inline_load_error Toy.libs (Toy.inline "x") (InvalidGeoJSON "s").
Proof.
  assert (Hin : EvDataCallback 5 (Some (InvalidGeoJSON "s")) None
                ∈ events (@loadData Toy.libs (Toy.inline "x") 5 Toy.loaded_world)).
  { vm_compute. do 2 apply list_elem_of_further. apply list_elem_of_here. }
  split; [exact Hin|].
  exact (proj2 (proj2 (@inline_load_errors Toy.libs (Toy.inline "x") 5 Toy.loaded_world
                         _ _ _ eq_refl Hin))).
Defined.

(** An array, on which [rewind] throws: as the response to the remote load
    in flight, and as inline text. *)
Lemma rewind_exception_leaves_the_callback_witness :
  @loadData_response Sample.libs (closure_of (Toy.remote "a") 1) None (JArray [])
    Sample.pending_world
  = ([], cleared Sample.pending_world, Thrown (LibraryError "rewind"))
  ∧ events (@loadData Sample.libs (Toy.inline "[]") 5 new_world)
    = [EvLoadGeoJSON (Toy.inline "[]");
       EvDataCallback 5 (Some (InvalidGeoJSON "s")) None].
Proof.
  destruct (@rewind_exception_leaves_the_callback Sample.libs
              (closure_of (Toy.remote "a") 1) (JArray []) (LibraryError "rewind")
              Sample.pending_world eq_refl eq_refl eq_refl) as [[Hrun _] Hinline].
  split; [exact Hrun|].
  exact (proj1 (proj2 (Hinline (Toy.inline "[]") 5%nat "[]"%string new_world
                         eq_refl eq_refl eq_refl))).
Defined.

(** The remote load in flight fails with status 404. *)
Lemma response_without_data_witness :
  ajax Sample.pending_world !! 0%nat = Some (closure_of (Toy.remote "a") 1)
  ∧ events (@response Sample.libs 0 (Some (AJAXError 404)) JUndefined Sample.pending_world)
    = [EvDataCallback 1 (Some (AJAXError 404)) None].
Proof.
  assert (Hcl : ajax Sample.pending_world !! 0%nat = Some (closure_of (Toy.remote "a") 1))
    by (vm_compute; reflexivity).
  split; [exact Hcl|].
  exact (proj1 (@response_without_data Sample.libs 0 _ (Some (AJAXError 404)) JUndefined
                  Sample.pending_world Hcl (or_introl (mk_is_Some _ _ eq_refl)))).
Defined.

(** New inline data for a worker source that has encoded tile (0,0,0). *)
Lemma successful_load_resets_loaded_witness :
  let op := OpLoadData (Toy.inline "{}") 3 in
  let res := {| resourceTiming := None; abandoned := false |} in
  EvDataCallback 3 None (Some res) ∈ events (@step Toy.libs op Toy.loaded_world)
  ∧ loaded (this (world (@step Toy.libs op Toy.loaded_world))) = Some ∅.
Proof.
  cbv zeta.
  assert (Hin : EvDataCallback 3 None (Some {| resourceTiming := None; abandoned := false |})
                ∈ events (@step Toy.libs (OpLoadData (Toy.inline "{}") 3) Toy.loaded_world)).
  { vm_compute. do 2 apply list_elem_of_further. apply list_elem_of_here. }
  split; [exact Hin|].
  exact (proj1 (proj2 (@successful_load_resets_loaded Toy.libs _ _ _ _ Hin eq_refl))).
Defined.

(** The result of a remote load that collects resource timing. *)
Lemma resourceTiming_of_a_result_witness :
  let r := {| resourceTiming := Some ("s"%string, [1; 2]); abandoned := false |} in
  EvDataCallback 1 None (Some r)
    ∈ events (@loadData_response Toy.libs (closure_of (Toy.remote "a") 1) None
                (JObject []) new_world)
  ∧ ∃ req, request (Toy.remote "a") = Some req ∧ collectResourceTiming req = true
           ∧ @perf_finish Toy.libs req = Some [1; 2].
Proof.
  cbv zeta.
  assert (Hin : EvDataCallback 1 None
                  (Some {| resourceTiming := Some ("s"%string, [1; 2]); abandoned := false |})
                ∈ events (@loadData_response Toy.libs (closure_of (Toy.remote "a") 1) None
                            (JObject []) new_world)).
  { vm_compute. apply list_elem_of_here. }
  split; [exact Hin|].
  exact (proj2 (@resourceTiming_of_a_result Toy.libs _ _ _ _ _ _ _ _ _ _ Hin eq_refl)).
Defined.

(** [removeSource] with a remote load in flight, and the response after it. *)
Lemma response_after_removeSource_witness :
  @trace Sample.libs [OpRemoveSource 9; OpResponse 0 None (JObject [])]
    Sample.pending_world
  = [EvDataCallback 1 None (Some result_abandoned); EvAck 9;
     EvDataCallback 1 None
       (Some {| resourceTiming := Some ("s"%string, [1; 2]); abandoned := false |})].
Proof.
  assert (Hcl : ajax Sample.pending_world !! 0%nat = Some (closure_of (Toy.remote "a") 1))
    by (vm_compute; reflexivity).
  etransitivity;
    [exact (proj1 (@response_after_removeSource Sample.libs 9 0 _ None (JObject [])
                     Sample.pending_world Hcl eq_refl))|].
  reflexivity.
Defined.

(** Tile (0,0,0): the encoder's array views one byte of a buffer of four. *)
Lemma rawData_has_encoded_length_witness :
  ∃ result,
    @loadTile Toy.libs _ (this Toy.loaded_world) Toy.tile000 (λ _ data, data) = Some result
    ∧ length (rawData result) = 1%nat.
Proof.
  assert (Hbounds : (1 + 1 ≤ 4)%nat) by lia.
  destruct (@rawData_has_encoded_length Toy.libs (this Toy.loaded_world) Toy.tile000
              Toy.index {| features := [Toy.square] |} eq_refl eq_refl Hbounds)
    as (result & Hload & _ & Hlen & _).
  exists result. split; [exact Hload|exact Hlen].
Defined.

End WorkerCoverage.

Module SourceCoverage.
Import Source SourceProofs.

Section Facts.
Context `{!Externals}.

Lemma _updateWorkerData_source sdt w :
  source (world (_updateWorkerData sdt w))
  = set_pendingLoads (_pendingLoads (source w) + 1) (source w)
  ∧ tiles (world (_updateWorkerData sdt w)) = tiles w
  ∧ calls (world (_updateWorkerData sdt w))
    = <[nextCall w := UpdateWorkerDataCallback sdt]> (calls w).
Proof.
  pose proof (_updateWorkerData_run sdt w) as Hu. name_result Hu.
  by destruct Hu as (_ & _ & Hs & Hc & _ & Ht & _).
Qed.

(** What a step does to the source object, the tiles and the outstanding calls *)
Lemma step_source op w :
  let w' := world (step op w) in
  (_removed (source w) = true → _removed (source w') = true)
  ∧ ((∀ d, op ≠ OpSetData d) → _data (source w') = _data (source w))
  ∧ (is_data_load w op = false → _pendingLoads (source w') = _pendingLoads (source w))
  ∧ id (source w') = id (source w) ∧ type (source w') = type (source w)
  ∧ maxzoom (source w') = maxzoom (source w).
Proof.
  cbv zeta.
  destruct op as [m| |d|tile cb|tile|tile| |call err result]; cbn [step is_data_load].
  - unfold onAdd, load. run.
    match goal with
    | |- context [_updateWorkerData ?s ?w1] =>
        destruct (_updateWorkerData_source s w1) as (Hs & _)
    end.
    destruct (_updateWorkerData _ _) as [[? ?] []]; cbn in *; by rewrite Hs.
  - unfold load. destruct (_updateWorkerData_source metadata w) as (Hs & _).
    by rewrite Hs.
  - unfold setData. run.
    match goal with
    | |- context [_updateWorkerData ?s ?w1] =>
        destruct (_updateWorkerData_source s w1) as (Hs & _)
    end.
    destruct (_updateWorkerData _ _) as [[? ?] []]; cbn in *; rewrite Hs; cbn;
      repeat split; try done; by intros Hd; destruct (Hd d).
  - unfold loadTile. run.
    destruct (tiles w !! tile) as [t|]; cbn; [|done]. by destruct (planet w).
  - unfold abortTile. run.
    destruct (tiles w !! tile) as [t|]; cbn; [|done]. by destruct (request t).
  - unfold unloadTile. run. by destruct (tiles w !! tile) as [t|].
  - unfold onRemove. by run.
  - unfold reply.
    destruct (calls w !! call) as [[sdt|tile reload cb|]|] eqn:Hcall; [| | |done].
    + run.
      match goal with
      | |- context [_updateWorkerData_callback ?s ?e ?r ?w1] =>
          pose proof (_updateWorkerData_callback_run s e r w1) as Hu
      end.
      name_result Hu. destruct Hu as (_ & Hs & _). cbn in *. by rewrite Hs.
    + unfold loadTile_callback. run. cbn. rewrite !lookup_alter_eq.
      destruct (tiles w !! tile) as [t|]; cbn; [|done].
      destruct (aborted t); cbn; [done|]. by destruct err.
    + by run.
Qed.

Lemma exec_keeps_removed ops w :
  _removed (source w) = true → _removed (source (exec ops w)) = true.
Proof.
  revert w. induction ops as [|op ops IH]; intros w Hr; cbn; [done|].
  apply IH. by apply (step_source op w).
Qed.

Lemma alter_keeps (P : Tile → Prop) (f : Tile → Tile) (m : gmap nat Tile) tile' tile :
  (∀ t, P t → P (f t)) →
  (∃ t, m !! tile = Some t ∧ P t) →
  ∃ t, alter f tile' m !! tile = Some t ∧ P t.
Proof.
  intros Hf (t & Ht & HP). rewrite lookup_alter.
  destruct (decide (tile' = tile)) as [->|]; [|by exists t].
  rewrite Ht. exists (f t). split; [done|]. by apply Hf.
Qed.

Lemma step_keeps_tile (P : Tile → Prop) op w tile :
  kept_by_the_source P →
  (∃ t, tiles w !! tile = Some t ∧ P t) →
  ∃ t, tiles (world (step op w)) !! tile = Some t ∧ P t.
Proof.
  intros (Ha & Hr & Hab & Hu & Hl) HP.
  assert (Hud : ∀ s w1, tiles w1 = tiles w →
    ∃ t, tiles (world (_updateWorkerData s w1)) !! tile = Some t ∧ P t).
  { intros s w1 Hw1. pose proof (_updateWorkerData_run s w1) as Hrun.
    name_result Hrun. destruct Hrun as (_ & _ & _ & _ & _ & Ht & _). cbn.
    by rewrite Ht, Hw1. }
  destruct op as [m| |d|tile' cb|tile'|tile'| |call err result]; cbn [step].
  - unfold onAdd, load. run.
    match goal with
    | |- context [_updateWorkerData ?s ?w1] => specialize (Hud s w1 eq_refl)
    end.
    by destruct (_updateWorkerData _ _) as [[? ?] []].
  - by apply Hud.
  - unfold setData. run.
    match goal with
    | |- context [_updateWorkerData ?s ?w1] => specialize (Hud s w1 eq_refl)
    end.
    by destruct (_updateWorkerData _ _) as [[? ?] []].
  - unfold loadTile. run.
    destruct (tiles w !! tile') as [t'|]; cbn; [|done].
    destruct (planet w); cbn; repeat (apply alter_keeps; [by auto|]); done.
  - unfold abortTile. run.
    destruct (tiles w !! tile') as [t'|]; cbn; [|done].
    destruct (request t'); cbn; repeat (apply alter_keeps; [by auto|]); done.
  - unfold unloadTile. run.
    destruct (tiles w !! tile') as [t'|]; cbn; [|done].
    repeat (apply alter_keeps; [by auto|]); done.
  - unfold onRemove. by run.
  - unfold reply.
    destruct (calls w !! call) as [[sdt|tile' reload cb|]|] eqn:Hcall; [| | |done].
    + run.
      pose proof (_updateWorkerData_callback_run sdt err result
        {| source := source w; map := map w; planet := planet w; tiles := tiles w;
           calls := delete call (calls w); nextCall := nextCall w |}) as Hc.
      name_result Hc. destruct Hc as (_ & _ & _ & _ & Ht & _). cbn in *. by rewrite Ht.
    + unfold loadTile_callback. run. cbn.
      rewrite !lookup_alter_eq.
      destruct (tiles w !! tile') as [t'|]; cbn;
        [|repeat (apply alter_keeps; [by auto|]); done].
      destruct (aborted t'); cbn; [repeat (apply alter_keeps; [by auto|]); done|].
      destruct err; cbn; repeat (apply alter_keeps; [by auto|]); done.
    + by run.
Qed.

Lemma exec_keeps_tile (P : Tile → Prop) ops w tile :
  kept_by_the_source P →
  (∃ t, tiles w !! tile = Some t ∧ P t) →
  ∃ t, tiles (exec ops w) !! tile = Some t ∧ P t.
Proof.
  intros HP. revert w. induction ops as [|op ops IH]; intros w Ht; cbn; [done|].
  by apply IH, step_keeps_tile.
Qed.

(** The message [loadTile] sends for a tile. *)
Lemma loadTile_run tile cb w t :
  tiles w !! tile = Some t →
  let r := loadTile tile cb w in
  ∃ params,
    events r = planet_log w tile
               ++ [EvSend (nextCall w)
                     (if actor t then MsgReloadTile params else MsgLoadTile params)]
    ∧ tp_uid params = uid t ∧ tp_tileID params = tileID t
    ∧ tp_source params = id (source w) ∧ tp_maxZoom params = maxzoom (source w)
    ∧ tp_pixelRatio params = pixelRatio (map w)
    ∧ tp_showCollisionBoxes params = showCollisionBoxes (map w)
    ∧ outcome r = Normal tt
    ∧ tiles (world r) !! tile
      = Some (set_tile_request (Some (nextCall w)) (set_tile_actor t))
    ∧ calls (world r)
      = <[nextCall w := LoadTileCallback tile (actor t) cb]> (calls w).
Proof.
  cbv zeta. intros Ht. unfold loadTile, planet_log. run. rewrite Ht. cbn.
  destruct (planet w); cbn; eexists; rewrite !lookup_alter_eq, Ht; cbn;
    repeat split; done.
Qed.

(** The response to a tile request, whether or not the tile was aborted. *)
Lemma reply_on_tile w tile t call reload cb err data :
  tiles w !! tile = Some t →
  calls w !! call = Some (LoadTileCallback tile reload cb) →
  reply call err data w
  = (EvUnloadVectorData tile ::
       (if aborted t then [EvCallback cb None]
        else match err with
             | Some e => [EvCallback cb (Some e)]
             | None => [EvLoadVectorData tile data reload; EvCallback cb None]
             end),
     {| source := source w; map := map w; planet := planet w;
        tiles := <[tile :=
                    let t' := unloadVectorData (set_tile_request None t) in
                    if aborted t then t'
                    else match err with
                         | Some _ => t'
                         | None => loadVectorData data reload t'
                         end]> (tiles w);
        calls := delete call (calls w); nextCall := nextCall w |},
     Normal tt).
Proof.
  intros Ht Hcall. unfold reply. rewrite Hcall.
  unfold loadTile_callback. run. cbn.
  rewrite !lookup_alter_eq, Ht. cbn.
  assert (Hm : ∀ f : Tile → Tile,
    alter f tile (alter unloadVectorData tile (alter (set_tile_request None) tile (tiles w)))
    = <[tile := f (unloadVectorData (set_tile_request None t))]> (tiles w)).
  { intros f. apply map_eq. intros i. destruct (decide (tile = i)) as [->|Hne].
    - by rewrite !lookup_alter_eq, lookup_insert_eq, Ht.
    - by rewrite !lookup_alter_ne, lookup_insert_ne. }
  assert (Hm0 :
    alter unloadVectorData tile (alter (set_tile_request None) tile (tiles w))
    = <[tile := unloadVectorData (set_tile_request None t)]> (tiles w)).
  { apply map_eq. intros i. destruct (decide (tile = i)) as [->|Hne].
    - by rewrite !lookup_alter_eq, lookup_insert_eq, Ht.
    - by rewrite !lookup_alter_ne, lookup_insert_ne. }
  destruct (aborted t); cbn; [by rewrite Hm0|].
  destruct err; cbn; [by rewrite Hm0|]. by rewrite Hm.
Qed.

(** X10.  [onRemove] sends [removeSource] to the worker and leaves the
    counter of pending loads alone; from then on, whatever the source does,
    the response to a data load fires "dataabort" and nothing else, whether
    it brings a result, an error or an abandonment. *)
Theorem removed_source_reports_only_aborts w ops call sdt err result :
  let w' := exec ops (world (onRemove w)) in
  calls w' !! call = Some (UpdateWorkerDataCallback sdt) →
  events (onRemove w) = [EvSend (nextCall w) (MsgRemoveSource (type (source w)) (id (source w)))]
  ∧ loaded (source (world (onRemove w))) = loaded (source w)
  ∧ events (reply call err result w') = [EvFire (dataabort sdt)].
Proof.
  cbv zeta. intros Hcall. split; [by unfold onRemove; run|]. split; [by unfold onRemove; run|].
  assert (Hrem : _removed (source (exec ops (world (onRemove w)))) = true).
  { apply exec_keeps_removed. unfold onRemove. by run. }
  unfold reply. rewrite Hcall. run.
  match goal with
  | |- context [_updateWorkerData_callback ?s ?e ?r ?w1] =>
      pose proof (_updateWorkerData_callback_run s e r w1) as Hu
  end.
  name_result Hu. destruct Hu as (_ & _ & _ & _ & _ & n & -> & Hn). cbn in *.
  destruct n as [|s|e|s rt]; [done|by destruct Hn as [-> _]|..].
  - destruct Hn as (_ & ? & _). congruence.
  - destruct Hn as (_ & _ & ? & _). congruence.
Qed.

(** X11.  The response to a tile request does not look at [_removed]: after
    [onRemove] it is handled as before (the same calls on the tile, the same
    callback invocation, the same tiles afterwards). *)
Theorem tile_response_ignores_removal w tile t call reload cb err data :
  tiles w !! tile = Some t →
  calls w !! call = Some (LoadTileCallback tile reload cb) →
  let w' := world (onRemove w) in
  events (reply call err data w') = events (reply call err data w)
  ∧ tiles (world (reply call err data w')) = tiles (world (reply call err data w)).
Proof.
  cbv zeta. intros Ht Hcall.
  rewrite (reply_on_tile w _ _ _ _ _ err data Ht Hcall).
  assert (Hrun : world (onRemove w)
    = {| source := set_removed true (source w); map := map w; planet := planet w;
         tiles := tiles w; calls := calls w; nextCall := S (nextCall w) |}).
  { unfold onRemove. by run. }
  rewrite Hrun.
  by erewrite (reply_on_tile _ tile t call reload cb err data).
Qed.

(** X12.  The first [loadTile] of a tile sends "loadTile" to the worker;
    every later [loadTile] of it sends "reloadTile", whatever happened to
    the tile in between (responses, [abortTile], [unloadTile]), with the
    tile's uid. *)
Theorem loadTile_then_reloadTile w tile t cb ops cb' :
  tiles w !! tile = Some t →
  actor t = false →
  let w' := exec ops (world (loadTile tile cb w)) in
  (∃ params,
     events (loadTile tile cb w)
     = planet_log w tile ++ [EvSend (nextCall w) (MsgLoadTile params)]
     ∧ tp_uid params = uid t)
  ∧ (∃ params,
       events (loadTile tile cb' w')
       = planet_log w' tile ++ [EvSend (nextCall w') (MsgReloadTile params)]
       ∧ tp_uid params = uid t).
Proof.
  cbv zeta. intros Ht Hfirst.
  destruct (loadTile_run tile cb w t Ht)
    as (params & Hev & Hp & _ & _ & _ & _ & _ & _ & Ht1 & _).
  split; [exists params; by rewrite Hev, Hfirst|].
  destruct (exec_keeps_tile (λ t', actor t' = true ∧ uid t' = uid t) ops
              (world (loadTile tile cb w)) tile) as (t' & Ht' & Ha & Hu).
  { repeat split; intros; cbn; intuition. }
  { eexists. split; [exact Ht1|]. by cbn. }
  destruct (loadTile_run tile cb' _ t' Ht') as (params' & Hev' & Hp' & _).
  exists params'. rewrite Hev', Ha. split; [done|congruence].
Qed.

(** X13.  The response to a request of a tile that was not aborted: the
    request handle is dropped and the vector data the tile held is
    discarded; with an error, the callback gets the error and the tile is
    left without data; without one, the tile is given the data of the
    response ([justReloaded] when the message was "reloadTile") and the
    callback gets [null].  The call is over. *)
Theorem tile_response_delivers w tile t call reload cb err data :
  tiles w !! tile = Some t →
  aborted t = false →
  calls w !! call = Some (LoadTileCallback tile reload cb) →
  let r := reply call err data w in
  let unloaded := unloadVectorData (set_tile_request None t) in
  outcome r = Normal tt
  ∧ calls (world r) !! call = None
  ∧ match err with
    | Some e =>
        events r = [EvUnloadVectorData tile; EvCallback cb (Some e)]
        ∧ tiles (world r) !! tile = Some unloaded
    | None =>
        events r = [EvUnloadVectorData tile; EvLoadVectorData tile data reload;
                    EvCallback cb None]
        ∧ tiles (world r) !! tile = Some (loadVectorData data reload unloaded)
    end.
Proof.
  cbv zeta. intros Ht Ha Hcall. rewrite (reply_on_tile _ _ _ _ _ _ _ _ Ht Hcall), Ha.
  cbn. rewrite lookup_delete_eq, lookup_insert_eq. by destruct err.
Qed.

(** X14.  The response to any request of a tile drops [tile.request],
    whichever request the handle belonged to, and cancels nothing; an
    [abortTile] right after it has no request to cancel. *)
Theorem response_clears_request w tile t call reload cb err data :
  tiles w !! tile = Some t →
  calls w !! call = Some (LoadTileCallback tile reload cb) →
  let w' := world (reply call err data w) in
  request <$> tiles w' !! tile = Some None
  ∧ events (abortTile tile w') = []
  ∧ (∀ c, EvCancel c ∉ events (reply call err data w)).
Proof.
  cbv zeta. intros Ht Hcall. rewrite (reply_on_tile _ _ _ _ _ _ _ _ Ht Hcall). cbn.
  rewrite lookup_insert_eq. split; [|split].
  - destruct (aborted t); [done|]. by destruct err.
  - unfold abortTile. run. cbn. rewrite lookup_insert_eq.
    destruct (aborted t); [done|]. by destruct err.
  - intros c Hin. destruct (aborted t); [|destruct err];
      decompose_list_elem_of; simplify_eq.
Qed.

(** X15.  [abortTile] twice is [abortTile] once: the second call cancels
    nothing and changes nothing. *)
Theorem abortTile_twice w tile t :
  tiles w !! tile = Some t →
  let w' := world (abortTile tile w) in
  abortTile tile w' = ([], w', Normal tt).
Proof.
  cbv zeta. intros Ht. unfold abortTile. run. rewrite Ht. cbn.
  destruct (request t) eqn:Hr; cbn; rewrite ?lookup_alter_eq, Ht; cbn.
  - do 2 f_equal. f_equal. apply map_eq. intros i.
    destruct (decide (tile = i)) as [->|Hne].
    + rewrite !lookup_alter_eq, Ht. by cbn.
    + by rewrite !lookup_alter_ne.
  - rewrite Hr. cbn. destruct w as [s m p ts cs n]; cbn in *.
    do 2 f_equal. f_equal. apply map_eq. intros i.
    destruct (decide (tile = i)) as [->|Hne].
    + rewrite !lookup_alter_eq, Ht. by cbn.
    + by rewrite !lookup_alter_ne.
Qed.

(** X16.  An operation leaves every tile but its own untouched: data loads
    and [onRemove] touch no tile; [loadTile], [abortTile], [unloadTile] and
    the response to a tile request touch only the tile they are about. *)
Theorem other_tiles_untouched op w tile :
  op_subject w op ≠ Some tile →
  tiles (world (step op w)) !! tile = tiles w !! tile.
Proof.
  intros Hs.
  assert (Hud : ∀ s w1, tiles w1 = tiles w →
    tiles (world (_updateWorkerData s w1)) !! tile = tiles w !! tile).
  { intros s w1 Hw1. pose proof (_updateWorkerData_run s w1) as Hrun.
    name_result Hrun. destruct Hrun as (_ & _ & _ & _ & _ & Ht & _). cbn.
    by rewrite Ht, Hw1. }
  destruct op as [m| |d|tile' cb|tile'|tile'| |call err result];
    cbn [step op_subject] in *.
  - unfold onAdd, load. run.
    match goal with
    | |- context [_updateWorkerData ?s ?w1] => specialize (Hud s w1 eq_refl)
    end.
    by destruct (_updateWorkerData _ _) as [[? ?] []].
  - by apply Hud.
  - unfold setData. run.
    match goal with
    | |- context [_updateWorkerData ?s ?w1] => specialize (Hud s w1 eq_refl)
    end.
    by destruct (_updateWorkerData _ _) as [[? ?] []].
  - assert (tile' ≠ tile) by congruence. unfold loadTile. run.
    destruct (tiles w !! tile') as [t'|]; cbn; [|done].
    destruct (planet w); cbn; by rewrite !lookup_alter_ne.
  - assert (tile' ≠ tile) by congruence. unfold abortTile. run.
    destruct (tiles w !! tile') as [t'|]; cbn; [|done].
    destruct (request t'); cbn; by rewrite !lookup_alter_ne.
  - assert (tile' ≠ tile) by congruence. unfold unloadTile. run.
    destruct (tiles w !! tile') as [t'|]; cbn; [|done].
    by rewrite !lookup_alter_ne.
  - unfold onRemove. by run.
  - unfold reply.
    destruct (calls w !! call) as [[sdt|tile' reload cb|]|] eqn:Hcall; [| | |done].
    + run.
      pose proof (_updateWorkerData_callback_run sdt err result
        {| source := source w; map := map w; planet := planet w; tiles := tiles w;
           calls := delete call (calls w); nextCall := nextCall w |}) as Hc.
      name_result Hc. destruct Hc as (_ & _ & _ & _ & Ht & _). cbn in *. by rewrite Ht.
    + assert (tile' ≠ tile) by congruence. unfold loadTile_callback. run. cbn.
      rewrite !lookup_alter_eq.
      destruct (tiles w !! tile') as [t'|]; cbn; [|by rewrite !lookup_alter_ne].
      destruct (aborted t'); cbn; [by rewrite !lookup_alter_ne|].
      destruct err; cbn; by rewrite !lookup_alter_ne.
    + by run.
Qed.

(** X17.  [unloadTile] discards the tile's vector data and sends
    "removeTile"; it cancels nothing and leaves the calls outstanding, so
    the response to a request of the tile is still handled, as it would
    have been, and gives the unloaded tile its data. *)
Theorem unloadTile_keeps_the_request w tile t :
  tiles w !! tile = Some t →
  let r := unloadTile tile w in
  events r = [EvUnloadVectorData tile;
              EvSend (nextCall w) (MsgRemoveTile (uid t) (type (source w)) (id (source w)))]
  ∧ tiles (world r) !! tile = Some (unloadVectorData t)
  ∧ calls (world r) = calls w
  ∧ ∀ call reload cb err data,
      calls w !! call = Some (LoadTileCallback tile reload cb) →
      events (reply call err data (world r)) = events (reply call err data w)
      ∧ tiles (world (reply call err data (world r))) !! tile
        = tiles (world (reply call err data w)) !! tile.
Proof.
  cbv zeta. intros Ht.
  assert (Hrun : unloadTile tile w
    = ([EvUnloadVectorData tile;
        EvSend (nextCall w) (MsgRemoveTile (uid t) (type (source w)) (id (source w)))],
       {| source := source w; map := map w; planet := planet w;
          tiles := alter unloadVectorData tile (tiles w);
          calls := calls w; nextCall := S (nextCall w) |}, Normal tt)).
  { unfold unloadTile. run. by rewrite Ht. }
  rewrite Hrun. cbn. rewrite lookup_alter_eq, Ht. cbn. do 3 (split; [done|]).
  intros call reload cb err data Hcall.
  rewrite (reply_on_tile w _ _ _ _ _ err data Ht Hcall).
  erewrite (reply_on_tile _ tile (unloadVectorData t) call reload cb err data);
    [|by cbn; rewrite lookup_alter_eq, Ht|done].
  cbn. by rewrite !lookup_insert_eq.
Qed.

(** X18.  Only data loads move the counter: the tile operations, the
    responses to tile requests and [onRemove] leave [_pendingLoads], and so
    [loaded()], and [_data] as they were. *)
Theorem only_data_loads_move_the_counter op w :
  is_data_load w op = false →
  let w' := world (step op w) in
  _pendingLoads (source w') = _pendingLoads (source w)
  ∧ loaded (source w') = loaded (source w)
  ∧ _data (source w') = _data (source w).
Proof.
  cbv zeta. intros Hop.
  destruct (step_source op w) as (_ & Hd & Hp & _).
  unfold loaded. rewrite (Hp Hop). split; [done|]. split; [done|].
  apply Hd. intros d ->. by cbn in Hop.
Qed.

(** X19.  The "data" notification carries resource timing only when the
    source collects resource timing and the result has timing filed under
    the source's own id, and never an empty list. *)
Theorem data_notification_timing sdt err result w s entries :
  EvFire (data s (Some entries))
    ∈ events (_updateWorkerData_callback sdt err result w) →
  s = sdt ∧ err = None
  ∧ _collectResourceTiming (source w) = true
  ∧ entries ≠ []
  ∧ ∃ r, result = Some (DataResult r)
         ∧ resourceTiming r = Some (id (source w), entries).
Proof.
  unfold _updateWorkerData_callback, result_resourceTiming. run. cbn.
  destruct (_removed (source w) || result_is_abandoned result); cbn;
    [intros Hin; decompose_list_elem_of; simplify_eq|].
  destruct err; cbn; [intros Hin; decompose_list_elem_of; simplify_eq|].
  destruct result as [[r|]|]; cbn;
    [|intros Hin; decompose_list_elem_of; simplify_eq..].
  destruct (resourceTiming r) as [[name t]|] eqn:Hrt; cbn;
    [|intros Hin; decompose_list_elem_of; simplify_eq].
  destruct (decide (name = id (source w))) as [->|]; cbn;
    [|intros Hin; decompose_list_elem_of; simplify_eq].
  destruct (_collectResourceTiming (source w)); cbn;
    [|intros Hin; decompose_list_elem_of; simplify_eq].
  destruct (bool_decide_reflect (0 < length t)%nat) as [Hlen|]; cbn;
    intros Hin; decompose_list_elem_of; simplify_eq.
  do 3 (split; [done|]). split; [intros ->; cbn in Hlen; lia|by exists r].
Qed.

(** X20.  [onAdd] stores the map and starts a metadata load: one pending
    load more, "dataloading", a [loadData] message whose response will be
    reported as metadata; the data is not touched.  The tile requests sent
    afterwards carry the pixel ratio and the collision-box flag of that
    map. *)
Theorem onAdd_starts_a_metadata_load m w :
  let r := onAdd m w in
  map (world r) = m
  ∧ _pendingLoads (source (world r)) = _pendingLoads (source w) + 1
  ∧ _data (source (world r)) = _data (source w)
  ∧ (∃ options,
       events r = [EvFire dataloading;
                   EvSend (nextCall w) (MsgLoadData (type (source w)) options)])
  ∧ calls (world r) !! nextCall w = Some (UpdateWorkerDataCallback metadata)
  ∧ ∀ tile t cb call message,
      tiles w !! tile = Some t →
      EvSend call message ∈ events (loadTile tile cb (world r)) →
      ∃ params,
        message = (if actor t then MsgReloadTile params else MsgLoadTile params)
        ∧ tp_pixelRatio params = pixelRatio m
        ∧ tp_showCollisionBoxes params = showCollisionBoxes m.
Proof.
  cbv zeta. unfold onAdd, load. run.
  match goal with
  | |- context [_updateWorkerData ?s ?w1] =>
      pose proof (_updateWorkerData_run s w1) as Hu
  end.
  name_result Hu. destruct Hu as (-> & [options ->] & Hs & Hc & _ & Ht & _ & Hm).
  cbn in *. rewrite Hs, Hc, Hm, lookup_insert_eq. cbn.
  do 3 (split; [done|]). split; [by exists options|]. split; [done|].
  intros tile t cb call message Htile Hin.
  destruct (loadTile_run tile cb w' t) as (params & Hev & _ & _ & _ & _ & Hpr & Hsc & _).
  { by rewrite Ht. }
  exists params. rewrite Hpr, Hsc, Hm. split; [|done].
  unfold events in Hev. rewrite Hev in Hin. unfold planet_log in Hin.
  destruct (planet w'), (tiles w' !! tile); decompose_list_elem_of; by simplify_eq.
Qed.

End Facts.

(** ** The properties on concrete runs *)

#[local] Existing Instance Toy.libs.

(** A data load is started, the source removed, a tile requested; then the
    data arrives. *)
Lemma removed_source_reports_only_aborts_witness :
  let w := world (setData (DataURL "u") Toy.world0) in
  let w' := exec [OpLoadTile 0 1] (world (onRemove w)) in
  let result := Some (DataResult {| resourceTiming := None; abandoned := false |}) in
  calls w' !! 0%nat = Some (UpdateWorkerDataCallback content)
  ∧ events (reply 0 None result w') = [EvFire (dataabort content)].
Proof.
  cbv zeta.
  assert (Hcall : calls (exec [OpLoadTile 0 1]
                    (world (onRemove (world (setData (DataURL "u") Toy.world0))))) !! 0%nat
                  = Some (UpdateWorkerDataCallback content))
    by (vm_compute; reflexivity).
  split; [exact Hcall|].
  exact (proj2 (proj2 (removed_source_reports_only_aborts _ [OpLoadTile 0 1] _ _ None
                         (Some (DataResult {| resourceTiming := None; abandoned := false |}))
                         Hcall))).
Defined.

(** The world in which tile 0 has been requested, and the tile as it is
    then. *)
Lemma tile_response_ignores_removal_witness :
  let w := exec [OpLoadTile 0 1] Toy.world0 in
  let data := Some (TileResult ["1"%byte]) in
  calls w !! 0%nat = Some (LoadTileCallback 0 false 1)
  ∧ events (reply 0 None data (world (onRemove w))) = events (reply 0 None data w).
Proof.
  cbv zeta.
  assert (Ht : tiles (exec [OpLoadTile 0 1] Toy.world0) !! 0%nat
               = Some {| uid := 7; tileID := tileID Toy.tile0; actor := true;
                         request := Some 0%nat; aborted := false;
                         vectorData := vectorData Toy.tile0 |})
    by (vm_compute; reflexivity).
  assert (Hcall : calls (exec [OpLoadTile 0 1] Toy.world0) !! 0%nat
                  = Some (LoadTileCallback 0 false 1))
    by (vm_compute; reflexivity).
  split; [exact Hcall|].
  exact (proj1 (tile_response_ignores_removal _ _ _ _ _ _ None
                  (Some (TileResult ["1"%byte])) Ht Hcall)).
Defined.

(** Tile 0 is requested, aborted, and requested again. *)
Lemma loadTile_then_reloadTile_witness :
  let w' := exec [OpAbortTile 0] (world (loadTile 0 1 Toy.world0)) in
  tiles Toy.world0 !! 0%nat = Some Toy.tile0
  ∧ ∃ params,
      events (loadTile 0 2 w')
      = planet_log w' 0 ++ [EvSend (nextCall w') (MsgReloadTile params)]
      ∧ tp_uid params = 7.
Proof.
  cbv zeta.
  assert (Ht : tiles Toy.world0 !! 0%nat = Some Toy.tile0) by (vm_compute; reflexivity).
  split; [exact Ht|].
  exact (proj2 (loadTile_then_reloadTile Toy.world0 0 Toy.tile0 1 [OpAbortTile 0] 2
                  Ht eq_refl)).
Defined.

(** The data of tile 0 arrives. *)
Lemma tile_response_delivers_witness :
  let w := exec [OpLoadTile 0 1] Toy.world0 in
  let data := Some (TileResult ["1"%byte]) in
  calls w !! 0%nat = Some (LoadTileCallback 0 false 1)
  ∧ events (reply 0 None data w)
    = [EvUnloadVectorData 0; EvLoadVectorData 0 data false; EvCallback 1 None].
Proof.
  cbv zeta.
  assert (Ht : tiles (exec [OpLoadTile 0 1] Toy.world0) !! 0%nat
               = Some {| uid := 7; tileID := tileID Toy.tile0; actor := true;
                         request := Some 0%nat; aborted := false;
                         vectorData := vectorData Toy.tile0 |})
    by (vm_compute; reflexivity).
  assert (Hcall : calls (exec [OpLoadTile 0 1] Toy.world0) !! 0%nat
                  = Some (LoadTileCallback 0 false 1))
    by (vm_compute; reflexivity).
  split; [exact Hcall|].
  exact (proj1 (proj2 (proj2 (tile_response_delivers _ _ _ _ _ _ None
                                (Some (TileResult ["1"%byte])) Ht eq_refl Hcall)))).
Defined.

(** Tile 0 is requested twice; the response to the first request drops the
    handle of the second. *)
Lemma response_clears_request_witness :
  let w := exec [OpLoadTile 0 1; OpLoadTile 0 2] Toy.world0 in
  let w' := world (reply 0 None None w) in
  request <$> tiles w !! 0%nat = Some (Some 1%nat)
  ∧ request <$> tiles w' !! 0%nat = Some None
  ∧ events (abortTile 0 w') = [].
Proof.
  cbv zeta.
  assert (Ht : tiles (exec [OpLoadTile 0 1; OpLoadTile 0 2] Toy.world0) !! 0%nat
               = Some {| uid := 7; tileID := tileID Toy.tile0; actor := true;
                         request := Some 1%nat; aborted := false;
                         vectorData := vectorData Toy.tile0 |})
    by (vm_compute; reflexivity).
  assert (Hcall : calls (exec [OpLoadTile 0 1; OpLoadTile 0 2] Toy.world0) !! 0%nat
                  = Some (LoadTileCallback 0 false 1))
    by (vm_compute; reflexivity).
  split; [by rewrite Ht|].
  destruct (response_clears_request _ _ _ _ _ _ None None Ht Hcall) as (Hr & Ha & _).
  split; [exact Hr|exact Ha].
Defined.

Lemma abortTile_twice_witness :
  let w' := world (abortTile 0 (exec [OpLoadTile 0 1] Toy.world0)) in
  abortTile 0 w' = ([], w', Normal tt).
Proof.
  cbv zeta.
  assert (Ht : tiles (exec [OpLoadTile 0 1] Toy.world0) !! 0%nat
               = Some {| uid := 7; tileID := tileID Toy.tile0; actor := true;
                         request := Some 0%nat; aborted := false;
                         vectorData := vectorData Toy.tile0 |})
    by (vm_compute; reflexivity).
  exact (abortTile_twice _ _ _ Ht).
Defined.

(** Two tiles; the one is aborted, the other is as it was. *)
Lemma other_tiles_untouched_witness :
  let w := new_world (constructor "s" Toy.options []) Toy.map0 None
             {[ 0%nat := Toy.tile0; 1%nat := Toy.tile0 ]} in
  tiles (world (step (OpAbortTile 0) w)) !! 1%nat = Some Toy.tile0.
Proof.
  cbv zeta. etransitivity; [apply other_tiles_untouched; by intros [=]|].
  vm_compute. reflexivity.
Defined.

Lemma unloadTile_keeps_the_request_witness :
  let w := exec [OpLoadTile 0 1] Toy.world0 in
  let r := unloadTile 0 w in
  events r = [EvUnloadVectorData 0; EvSend 1 (MsgRemoveTile 7 "custom" "s")]
  ∧ calls (world r) = calls w.
Proof.
  cbv zeta.
  assert (Ht : tiles (exec [OpLoadTile 0 1] Toy.world0) !! 0%nat
               = Some {| uid := 7; tileID := tileID Toy.tile0; actor := true;
                         request := Some 0%nat; aborted := false;
                         vectorData := vectorData Toy.tile0 |})
    by (vm_compute; reflexivity).
  destruct (unloadTile_keeps_the_request _ _ _ Ht) as (Hev & _ & Hc & _).
  split; [exact Hev|exact Hc].
Defined.

(** A tile request while a data load is pending. *)
Lemma only_data_loads_move_the_counter_witness :
  let w := world (setData (DataURL "u") Toy.world0) in
  is_data_load w (OpLoadTile 0 1) = false
  ∧ _pendingLoads (source (world (step (OpLoadTile 0 1) w))) = 1.
Proof.
  cbv zeta. split; [reflexivity|].
  etransitivity;
    [exact (proj1 (only_data_loads_move_the_counter (OpLoadTile 0 1)
                     (world (setData (DataURL "u") Toy.world0)) eq_refl))|].
  reflexivity.
Defined.

(** A result with timing filed under the source's id "s". *)
Lemma data_notification_timing_witness :
  let result := Some (DataResult {| resourceTiming := Some ("s"%string, [1; 2]);
                                    abandoned := false |}) in
  EvFire (data content (Some [1; 2]))
    ∈ events (_updateWorkerData_callback content None result Toy.world0)
  ∧ _collectResourceTiming (source Toy.world0) = true.
Proof.
  cbv zeta.
  assert (Hin : EvFire (data content (Some [1; 2]))
    ∈ events (_updateWorkerData_callback content None
                (Some (DataResult {| resourceTiming := Some ("s"%string, [1; 2]);
                                     abandoned := false |})) Toy.world0)).
  { vm_compute. apply list_elem_of_here. }
  split; [exact Hin|].
  exact (proj1 (proj2 (proj2 (data_notification_timing _ _ _ _ _ _ Hin)))).
Defined.

(** A map with pixel ratio 2: the tile request sent after [onAdd] carries
    it. *)
Lemma onAdd_starts_a_metadata_load_witness :
  let m := {| pixelRatio := 2; showCollisionBoxes := true |} in
  let w := world (onAdd m Toy.world0) in
  ∃ call message params,
    EvSend call message ∈ events (loadTile 0 1 w)
    ∧ message = MsgLoadTile params
    ∧ tp_pixelRatio params = 2.
Proof.
  cbv zeta.
  assert (Hin : ∃ message,
    EvSend 1 message
      ∈ events (loadTile 0 1
                  (world (onAdd {| pixelRatio := 2; showCollisionBoxes := true |}
                            Toy.world0)))).
  { eexists. vm_compute. apply list_elem_of_here. }
  destruct Hin as [message Hin].
  destruct (proj2 (proj2 (proj2 (proj2 (proj2
              (onAdd_starts_a_metadata_load
                 {| pixelRatio := 2; showCollisionBoxes := true |} Toy.world0)))))
              0%nat Toy.tile0 1%nat 1%nat message eq_refl Hin)
    as (params & Hm & Hp & _).
  exists 1%nat, message, params. split; [exact Hin|]. split; [exact Hm|exact Hp].
Defined.

End SourceCoverage.
